(* ===================================================================== *)
(* Suivi des Marees: the dashboard's join / filter / paginate / export   *)
(* core (src/pages/dashboard.tsx), embedded as Rocq functions.           *)
(* ===================================================================== *)
(* Data conventions.
   - A JavaScript string is the list of its UTF-16 code units (N).
   - An owner row (interface Proprietaire, an open string-to-string
     object) is a gmap from strings to strings.
   - A JavaScript number that holds an integer is a Z; NaN is None of
     option Z.  Array lengths and the row counter stay far below 2^53,
     where the double arithmetic of the source is exact.
   - React state is a record, a setter is a function on that record,
     and the merge effect runs after each setter it depends on.
   - The host's String.prototype.toLowerCase, its local time zone and
     its fallback date parser are parameters of the development.      *)

From Stdlib Require Import ZArith NArith QArith Qround Lia List Ascii String.
From Stdlib Require Import DecimalNat Sorted.
From stdpp Require Import gmap list.

Local Open Scope Z_scope.

(* ===================================================================== *)
(* 1. Strings                                                            *)
(* ===================================================================== *)

Module JsString.

Abbreviation jsstring := (list N).

(* An ASCII literal of the source, as code units. *)
Definition lit (s : string) : jsstring :=
  map N_of_ascii (list_ascii_of_string s).

Definition code_eqb (a b : N) : bool := N.eqb a b.

Fixpoint str_eqb (s t : jsstring) : bool :=
  match s, t with
  | [], [] => true
  | a :: s', b :: t' => code_eqb a b && str_eqb s' t'
  | _, _ => false
  end.

(* ToBoolean of a string: the empty string is the only falsy one. *)
Definition truthy (s : jsstring) : bool :=
  match s with [] => false | _ :: _ => true end.

(* WhiteSpace and LineTerminator code points of ECMAScript, the set
   that trim and parseInt strip. *)
Definition is_white_space (c : N) : bool :=
  ((9 <=? c) && (c <=? 13))%N
  || (c =? 32)%N || (c =? 0xA0)%N || (c =? 0x1680)%N
  || ((0x2000 <=? c) && (c <=? 0x200A))%N
  || (c =? 0x2028)%N || (c =? 0x2029)%N || (c =? 0x202F)%N
  || (c =? 0x205F)%N || (c =? 0x3000)%N || (c =? 0xFEFF)%N.

Fixpoint trimStart (s : jsstring) : jsstring :=
  match s with
  | [] => []
  | c :: s' => if is_white_space c then trimStart s' else s
  end.

Definition trimEnd (s : jsstring) : jsstring :=
  rev (trimStart (rev s)).

(* String.prototype.trim *)
Definition trim (s : jsstring) : jsstring := trimEnd (trimStart s).

(* String.prototype.split with a one-code-unit separator: always at
   least one piece, the pieces between consecutive separators. *)
Fixpoint split (sep : N) (s : jsstring) : list jsstring :=
  match s with
  | [] => [[]]
  | c :: s' =>
      if code_eqb c sep then [] :: split sep s'
      else match split sep s' with
           | [] => [[c]]
           | w :: ws => (c :: w) :: ws
           end
  end.

Fixpoint starts_with (needle hay : jsstring) : bool :=
  match needle, hay with
  | [], _ => true
  | _ :: _, [] => false
  | a :: n', b :: h' => code_eqb a b && starts_with n' h'
  end.

(* String.prototype.includes: hay.includes(needle) *)
Fixpoint includes (hay needle : jsstring) : bool :=
  starts_with needle hay
  || match hay with
     | [] => false
     | _ :: h' => includes h' needle
     end.

(* Array.prototype.join on strings *)
Fixpoint join (sep : jsstring) (parts : list jsstring) : jsstring :=
  match parts with
  | [] => []
  | [p] => p
  | p :: ps => p ++ sep ++ join sep ps
  end.

Definition is_digit (c : N) : bool := ((48 <=? c) && (c <=? 57))%N.

Definition digit_value (c : N) : Z := Z.of_N c - 48.

(* The value of the longest prefix of decimal digits, with its length. *)
Fixpoint digits_prefix (acc : Z) (len : nat) (s : jsstring) : Z * nat :=
  match s with
  | c :: s' =>
      if is_digit c then digits_prefix (10 * acc + digit_value c) (S len) s'
      else (acc, len)
  | [] => (acc, len)
  end.

(* parseInt(s, 10): leading white space is skipped, one sign is read,
   then the longest run of decimal digits; no digit gives NaN. The value
   is the integer the digits write. It is the value of the source as
   long as it is at most 2^53 in absolute value; beyond, the source
   holds the nearest double (Infinity for very long runs), so what is
   proved of a parsed number other than its being zero or not is stated
   within that bound. *)
Definition parseInt (s : jsstring) : option Z :=
  let S1 := trimStart s in
  let '(sign, S2) :=
    match S1 with
    | c :: rest =>
        if (c =? 45)%N then (-1, rest)
        else if (c =? 43)%N then (1, rest)
        else (1, S1)
    | [] => (1, S1)
    end in
  match digits_prefix 0 0 S2 with
  | (_, O) => None
  | (v, S _) => Some (sign * v)
  end.

(* parseInt applied to an array element that may be undefined:
   ToString(undefined) is the string undefined. *)
Definition parseInt_elem (o : option jsstring) : option Z :=
  match o with
  | Some s => parseInt s
  | None => parseInt (lit "undefined")
  end.

(* n || 0 on a number: NaN and zero are falsy. *)
Definition or_zero (n : option Z) : Z :=
  match n with
  | Some v => if v =? 0 then 0 else v
  | None => 0
  end.

Fixpoint uint_codes (d : Decimal.uint) : jsstring :=
  match d with
  | Decimal.Nil => []
  | Decimal.D0 d' => 48%N :: uint_codes d'
  | Decimal.D1 d' => 49%N :: uint_codes d'
  | Decimal.D2 d' => 50%N :: uint_codes d'
  | Decimal.D3 d' => 51%N :: uint_codes d'
  | Decimal.D4 d' => 52%N :: uint_codes d'
  | Decimal.D5 d' => 53%N :: uint_codes d'
  | Decimal.D6 d' => 54%N :: uint_codes d'
  | Decimal.D7 d' => 55%N :: uint_codes d'
  | Decimal.D8 d' => 56%N :: uint_codes d'
  | Decimal.D9 d' => 57%N :: uint_codes d'
  end.

(* Number-to-string of a non-negative integer below 10^21: its decimal
   digits, most significant first, no padding. *)
Definition decimal (n : nat) : jsstring := uint_codes (Nat.to_uint n).

(* The ASCII part of String.prototype.toLowerCase. *)
Definition ascii_lower (c : N) : N :=
  if ((65 <=? c) && (c <=? 90))%N then (c + 32)%N else c.

Definition is_ascii (s : jsstring) : Prop := Forall (fun c => (c < 128)%N) s.

End JsString.

Import JsString.

(* ===================================================================== *)
(* 2. Dates                                                              *)
(* ===================================================================== *)
(* Time values are milliseconds since the epoch; an Invalid Date has the
   time value NaN, here None.  The names are those of the ECMAScript
   specification of Date. *)

Module JsDate.

Definition msPerDay : Z := 86400000.

Definition Day (t : Z) : Z := t / msPerDay.

Definition MakeTime (hour min sec ms : Z) : Z :=
  hour * 3600000 + min * 60000 + sec * 1000 + ms.

Definition MakeDate (day time : Z) : Z := day * msPerDay + time.

Definition DayFromYear (y : Z) : Z :=
  365 * (y - 1970) + (y - 1969) / 4 - (y - 1901) / 100 + (y - 1601) / 400.

Definition InLeapYear (y : Z) : bool :=
  (y mod 4 =? 0) && (negb (y mod 100 =? 0) || (y mod 400 =? 0)).

(* Day within the year of the first day of month mn (0 = January). *)
Definition month_start (leap : bool) (mn : Z) : Z :=
  let l := if leap then 1 else 0 in
  match mn with
  | 0 => 0
  | 1 => 31
  | 2 => 59 + l
  | 3 => 90 + l
  | 4 => 120 + l
  | 5 => 151 + l
  | 6 => 181 + l
  | 7 => 212 + l
  | 8 => 243 + l
  | 9 => 273 + l
  | 10 => 304 + l
  | _ => 334 + l
  end.

Definition DaysInMonth (y mn : Z) : Z :=
  match mn with
  | 1 => if InLeapYear y then 29 else 28
  | 3 | 5 | 8 | 10 => 30
  | _ => 31
  end.

(* MakeDay: a month outside 0..11 carries into the year. *)
Definition MakeDay (year month date : Z) : Z :=
  let ym := year + month / 12 in
  let mn := month mod 12 in
  DayFromYear ym + month_start (InLeapYear ym) mn + date - 1.

Definition TimeClip (t : Z) : option Z :=
  if Z.abs t >? 8640000000000000 then None else Some t.

(* The date-only form YYYY-MM-DD of the ISO format, read as UTC; only
   calendar dates are accepted here, every other string is left to the
   host's own parser. *)
Definition parse_iso_date (s : jsstring) : option Z :=
  match s with
  | [y1; y2; y3; y4; d1; m1; m2; d2; a1; a2] =>
      if forallb is_digit [y1; y2; y3; y4; m1; m2; a1; a2]
         && code_eqb d1 45 && code_eqb d2 45
      then
        let y := fst (digits_prefix 0 0 [y1; y2; y3; y4]) in
        let m := fst (digits_prefix 0 0 [m1; m2]) in
        let d := fst (digits_prefix 0 0 [a1; a2]) in
        if (1 <=? m) && (m <=? 12) && (1 <=? d) && (d <=? DaysInMonth y (m - 1))
        then Some (MakeDate (MakeDay y (m - 1) d) 0)
        else None
      else None
  | _ => None
  end.

(* a >= b and a <= b on time values: false as soon as one is NaN. *)
Definition date_geb (a b : option Z) : bool :=
  match a, b with
  | Some x, Some y => y <=? x
  | _, _ => false
  end.

Definition date_leb (a b : option Z) : bool :=
  match a, b with
  | Some x, Some y => x <=? y
  | _, _ => false
  end.

End JsDate.

Import JsDate.

(* ===================================================================== *)
(* 3. The host                                                           *)
(* ===================================================================== *)

(* What the browser supplies and the source relies on. LocalTZA t isUTC
   is the offset of local time from UTC in milliseconds, as in
   ECMAScript; Date_parse_fallback is the implementation-defined parser
   that new Date(string) uses for strings outside the ISO format. *)
Class Host := {
  toLowerCase : jsstring -> jsstring;
  LocalTZA : Z -> bool -> Z;
  Date_parse_fallback : jsstring -> option Z
}.

(* toLowerCase maps A..Z to a..z and leaves other ASCII code units. *)
Definition lowers_ascii (H : Host) : Prop :=
  forall s, is_ascii s -> toLowerCase s = map ascii_lower s.

(* No zone is a day or more away from UTC. *)
Definition zone_within_a_day (H : Host) : Prop :=
  forall t isUTC, - msPerDay < LocalTZA t isUTC < msPerDay.

(* A host for evaluation: ASCII lowering, a fixed zone one hour east of
   UTC, no fallback parser. *)
Definition sample_host : Host := {|
  toLowerCase := map ascii_lower;
  LocalTZA := fun _ _ => 3600000;
  Date_parse_fallback := fun _ => None
|}.

Definition LocalTime `{Host} (t : Z) : Z := t + LocalTZA t true.

Definition UTC `{Host} (t : Z) : Z := t - LocalTZA t false.

(* new Date(year, monthIndex, day): local midnight of that day; a year
   in 0..99 means 1900 + year. *)
Definition new_Date_ymd `{Host} (year month date : Z) : option Z :=
  let yr := if (0 <=? year) && (year <=? 99) then 1900 + year else year in
  TimeClip (UTC (MakeDate (MakeDay yr month date) (MakeTime 0 0 0 0))).

(* new Date(string) *)
Definition new_Date_string `{Host} (s : jsstring) : option Z :=
  match parse_iso_date s with
  | Some t => TimeClip t
  | None =>
      match Date_parse_fallback s with
      | Some t => TimeClip t
      | None => None
      end
  end.

(* Date.prototype.setHours(hour, min, sec, ms), on the time value. *)
Definition setHours `{Host} (tv : option Z) (hour min sec ms : Z) : option Z :=
  match tv with
  | None => None
  | Some t =>
      TimeClip (UTC (MakeDate (Day (LocalTime t)) (MakeTime hour min sec ms)))
  end.

(* ===================================================================== *)
(* 4. The dashboard                                                      *)
(* ===================================================================== *)

(* interface Proprietaire { [key: string]: string } *)
Abbreviation Proprietaire := (gmap jsstring jsstring).

(* interface Historique; the fields carry the prefix h_, those of
   MergedData the prefix m_. *)
Record Historique := {
  h_Matricule : jsstring;
  h_DateMaree : jsstring;
  h_Mois : Z;
  h_Annee : Z
}.

(* interface MergedData *)
Record MergedData := {
  m_Barque : jsstring;
  m_Matricule : jsstring;
  m_DateMaree : jsstring;
  m_Proprietaire : jsstring;
  m_Mois : Z;
  m_Annee : Z;
  m_id : jsstring
}.

(* The three column names the source reads from an owner row. *)
Definition key_Matricule : jsstring := lit "Matricule".
Definition key_Barque : jsstring := lit "Barque".
Definition key_Proprietaire : jsstring := lit "Propri" ++ [0xE9%N] ++ lit "taire".

Definition Inconnu : jsstring := lit "Inconnu".

Definition itemsPerPage : Z := 10.

(* row[key] || fallback: an absent column and an empty one both give
   the fallback. *)
Definition field_or (p : Proprietaire) (key fallback : jsstring) : jsstring :=
  match p !! key with
  | Some v => if truthy v then v else fallback
  | None => fallback
  end.

(* ---- handleHistoriqueUpload: the body of reader.onload -------------- *)

(* line.trim() !== '' *)
Definition non_blank (line : jsstring) : bool := truthy (trim line).

(* values[i] ? values[i].trim() : '' *)
Definition trimmed_or_empty (o : option jsstring) : jsstring :=
  match o with
  | Some v => if truthy v then trim v else []
  | None => []
  end.

(* The callback of lines.map *)
Definition parse_line (line : jsstring) : Historique :=
  let values := split 59 line in
  let dateStr := trimmed_or_empty (values !! 1%nat) in
  let dateParts := split 47 dateStr in
  {| h_Matricule := trimmed_or_empty (values !! 0%nat);
     h_DateMaree := dateStr;
     h_Mois := or_zero (parseInt_elem (dateParts !! 0%nat));
     h_Annee := or_zero (parseInt_elem (dateParts !! 1%nat)) |}.

Definition history_lines (text : jsstring) : list jsstring :=
  List.filter non_blank (split 10 text).

Definition parse_historique (text : jsstring) : list Historique :=
  map parse_line (history_lines text).

(* ---- the merge effect ----------------------------------------------- *)

(* p['Matricule'] === h['Matricule'] *)
Definition owner_matches (h : Historique) (p : Proprietaire) : bool :=
  match p !! key_Matricule with
  | Some v => str_eqb v (h_Matricule h)
  | None => false
  end.

(* The two variables the forEach callback closes over. *)
Record MergeAcc := {
  merged : list MergedData;
  idCounter : nat
}.

(* One call of the forEach callback. *)
Definition merge_step (proprietairesData : list Proprietaire)
    (acc : MergeAcc) (h : Historique) : MergeAcc :=
  match List.find (owner_matches h) proprietairesData with
  | Some proprietaire =>
      {| merged := merged acc ++
           [ {| m_Barque := field_or proprietaire key_Barque Inconnu;
                m_Matricule := h_Matricule h;
                m_DateMaree := h_DateMaree h;
                m_Proprietaire := field_or proprietaire key_Proprietaire Inconnu;
                m_Mois := h_Mois h;
                m_Annee := h_Annee h;
                m_id := lit "row-" ++ decimal (idCounter acc) |} ];
         idCounter := S (idCounter acc) |}
  | None => acc
  end.

(* The body of the effect's if: the value handed to setMergedData. *)
Definition merge (proprietairesData : list Proprietaire)
    (historiqueData : list Historique) : list MergedData :=
  merged (fold_left (merge_step proprietairesData) historiqueData
            {| merged := []; idCounter := 0 |}).

(* ---- filteredData --------------------------------------------------- *)

Definition owner_pred (selectedProprietaire : jsstring) (item : MergedData) : bool :=
  str_eqb (m_Proprietaire item) selectedProprietaire.

Definition text_pred `{Host} (lowerFilter : jsstring) (item : MergedData) : bool :=
  includes (toLowerCase (m_Matricule item)) lowerFilter
  || includes (toLowerCase (m_Barque item)) lowerFilter.

(* The callback of the date filter; start and end are null (None) or a
   Date, given by its time value. Mois - 1 and the month carry of
   MakeDay are integer arithmetic, which is the arithmetic of the source
   while Mois and Annee stay below 2^53 in absolute value. *)
Definition date_pred `{Host} (start end_ : option (option Z)) (item : MergedData) : bool :=
  let itemDate := new_Date_ymd (m_Annee item) (m_Mois item - 1) 1 in
  match start, end_ with
  | Some s, Some e => date_geb itemDate s && date_leb itemDate e
  | Some s, None => date_geb itemDate s
  | None, Some e => date_leb itemDate e
  | None, None => true
  end.

Definition filteredData `{Host} (mergedData : list MergedData)
    (selectedProprietaire barqueFilter startDate endDate : jsstring)
    : list MergedData :=
  let data := mergedData in
  let data :=
    if truthy selectedProprietaire && negb (str_eqb selectedProprietaire (lit "all"))
    then List.filter (owner_pred selectedProprietaire) data
    else data in
  let data :=
    if truthy barqueFilter
    then List.filter (text_pred (toLowerCase barqueFilter)) data
    else data in
  let data :=
    if truthy startDate || truthy endDate then
      let start := if truthy startDate then Some (new_Date_string startDate) else None in
      let end_ := if truthy endDate then Some (new_Date_string endDate) else None in
      let start := option_map (fun d => setHours d 0 0 0 0) start in
      let end_ := option_map (fun d => setHours d 23 59 59 999) end_ in
      List.filter (date_pred start end_) data
    else data in
  data.

(* ---- pagination ----------------------------------------------------- *)

(* Math.ceil(a / b) for integers a and b > 0, the quotient taken in the
   rationals. *)
Definition Math_ceil_div (a b : Z) : Z :=
  Qceiling (Qdiv (inject_Z a) (inject_Z b)).

Definition totalPages (filteredData : list MergedData) : Z :=
  Math_ceil_div (Z.of_nat (length filteredData)) itemsPerPage.

(* A relative index of Array.prototype.slice: negative counts from the
   end, and the result is clamped to 0..len. *)
Definition slice_index (len i : Z) : Z :=
  if i <? 0 then Z.max (len + i) 0 else Z.min i len.

(* Array.prototype.slice(start, end) *)
Definition slice {A} (l : list A) (start end_ : Z) : list A :=
  let len := Z.of_nat (length l) in
  let k := slice_index len start in
  let final := slice_index len end_ in
  take (Z.to_nat (Z.max (final - k) 0)) (drop (Z.to_nat k) l).

Definition currentData (filteredData : list MergedData) (currentPage : Z)
    : list MergedData :=
  slice filteredData ((currentPage - 1) * itemsPerPage) (currentPage * itemsPerPage).

(* ---- handleCopyData ------------------------------------------------- *)

Definition sailboat : jsstring := [0x26F5%N].
Definition calendar : jsstring := [0xD83D%N; 0xDCC5%N].
Definition bar_chart : jsstring := [0xD83D%N; 0xDCCA%N].
Definition nl : jsstring := [10%N].

(* The template of one item. *)
Definition item_text (item : MergedData) : jsstring :=
  sailboat ++ lit " *" ++ m_Barque item ++ lit "* (" ++ m_Matricule item
  ++ lit ")" ++ nl ++ calendar ++ lit " " ++ m_DateMaree item.

Definition separator : jsstring :=
  nl ++ nl ++ lit "------------------" ++ nl ++ nl.

Definition totalText (filteredData : list MergedData) : jsstring :=
  bar_chart ++ lit " *Total des r" ++ [0xE9%N] ++ lit "sultats:* "
  ++ decimal (length filteredData).

Definition textToCopy (filteredData : list MergedData) : jsstring :=
  totalText filteredData ++ nl ++ nl ++ join separator (map item_text filteredData).

(* What handleCopyData does: either the destructive notice and nothing
   else, or one write to the clipboard. *)
Inductive CopyOutcome :=
| AucuneDonnee
| ClipboardWrite (text : jsstring).

Definition handleCopyData (filteredData : list MergedData) : CopyOutcome :=
  if (length filteredData =? 0)%nat then AucuneDonnee
  else ClipboardWrite (textToCopy filteredData).

(* ---- the component state -------------------------------------------- *)

Record Dashboard := {
  proprietairesData : list Proprietaire;
  historiqueData : list Historique;
  mergedData : list MergedData;
  currentPage : Z
}.

Definition initial : Dashboard :=
  {| proprietairesData := []; historiqueData := []; mergedData := [];
     currentPage := 1 |}.

(* The effect on [proprietairesData, historiqueData]. *)
Definition merge_effect (st : Dashboard) : Dashboard :=
  if (0 <? length (proprietairesData st))%nat && (0 <? length (historiqueData st))%nat
  then {| proprietairesData := proprietairesData st;
          historiqueData := historiqueData st;
          mergedData := merge (proprietairesData st) (historiqueData st);
          currentPage := 1 |}
  else st.

(* handleProprietairesUpload, from the rows Papa.parse hands to complete. *)
Definition handleProprietairesUpload (data : list Proprietaire) (st : Dashboard)
    : Dashboard :=
  merge_effect {| proprietairesData := data;
                  historiqueData := historiqueData st;
                  mergedData := mergedData st;
                  currentPage := currentPage st |}.

(* handleHistoriqueUpload, from the text the FileReader loaded. *)
Definition handleHistoriqueUpload (text : jsstring) (st : Dashboard) : Dashboard :=
  merge_effect {| proprietairesData := proprietairesData st;
                  historiqueData := parse_historique text;
                  mergedData := mergedData st;
                  currentPage := currentPage st |}.

(* ===================================================================== *)
(* 5. The example of the README and of the specification                 *)
(* ===================================================================== *)

(* {Matricule: "123-456", Barque: "Barque1", Proprietaire: "Jean Dupont"} *)
Definition example_owner : Proprietaire :=
  <[key_Matricule := lit "123-456"]>
    (<[key_Barque := lit "Barque1"]>
       (<[key_Proprietaire := lit "Jean Dupont"]> ∅)).

(* The two history lines, as the text of the uploaded file. *)
Definition example_history : jsstring :=
  lit "123-456;01/01/2024" ++ nl ++ lit "999-999;02/02/2024".

(* Both uploads, owners first. *)
Definition example_session : Dashboard :=
  handleHistoriqueUpload example_history
    (handleProprietairesUpload [example_owner] initial).

(* What the parse-then-merge pipeline leaves in mergedData. *)
Definition example_record : MergedData :=
  {| m_Barque := lit "Barque1";
     m_Matricule := lit "123-456";
     m_DateMaree := lit "01/01/2024";
     m_Proprietaire := lit "Jean Dupont";
     m_Mois := 1;
     m_Annee := 1;
     m_id := lit "row-0" |}.

(* s occurs in t as a contiguous run of code units. *)
Definition substring (s t : jsstring) : Prop :=
  exists before after, t = before ++ s ++ after.

(* A number can be read at the start of s: optional white space, an
   optional sign, then a decimal digit. *)
Definition numeric_start (s : jsstring) : Prop :=
  exists ws sg d rest,
    s = ws ++ sg ++ d :: rest
    /\ forallb is_white_space ws = true
    /\ (sg = [] \/ sg = [43%N] \/ sg = [45%N])
    /\ is_digit d = true.

(* The date field of a history line: its second ;-separated field
   without the white space around it, empty when the line has no second
   field. *)
Definition line_date_field (line : jsstring) : jsstring :=
  match split 59 line with
  | _ :: field :: _ => trim field
  | _ => []
  end.

(* s is a number: with the white space around it removed, an optional
   sign followed by decimal digits and nothing else. *)
Definition numeric (s : jsstring) : bool :=
  let t := trim s in
  let digits :=
    match t with
    | c :: rest => if (c =? 45)%N || (c =? 43)%N then rest else t
    | [] => []
    end in
  truthy digits && forallb is_digit digits.

(* The part of a merged record that comes from the trip. *)
Definition trip_of (r : MergedData) : Historique :=
  {| h_Matricule := m_Matricule r; h_DateMaree := m_DateMaree r;
     h_Mois := m_Mois r; h_Annee := m_Annee r |}.

(* The pages 1 .. totalPages of a filtered list. *)
Definition page_numbers (filteredData : list MergedData) : list Z :=
  map Z.of_nat (seq 1 (Z.to_nat (totalPages filteredData))).

(* The rows of merge as an enumeration: the counter is the index the
   next emitted row will get. *)
Fixpoint join_rows (owners : list Proprietaire) (i : nat)
    (trips : list Historique) : list MergedData :=
  match trips with
  | [] => []
  | h :: rest =>
      match List.find (owner_matches h) owners with
      | Some p =>
          {| m_Barque := field_or p key_Barque Inconnu;
             m_Matricule := h_Matricule h;
             m_DateMaree := h_DateMaree h;
             m_Proprietaire := field_or p key_Proprietaire Inconnu;
             m_Mois := h_Mois h;
             m_Annee := h_Annee h;
             m_id := lit "row-" ++ decimal i |} :: join_rows owners (S i) rest
      | None => join_rows owners i rest
      end
  end.

(* The owner's column, or the placeholder when the column is empty or
   absent. *)
Definition carries (field : jsstring) (column : option jsstring) : Prop :=
  match column with
  | Some (c :: v) => field = c :: v
  | Some [] | None => field = Inconnu
  end.

(* Some owner has the trip's registration id. *)
Definition has_owner (owners : list Proprietaire) (h : Historique) : bool :=
  existsb (owner_matches h) owners.

(* p is the first owner, scanning left to right, whose Matricule column
   is the given registration id. *)
Definition first_owner_of (owners : list Proprietaire) (matricule : jsstring)
    (p : Proprietaire) : Prop :=
  exists i : nat,
    owners !! i = Some p
    /\ p !! key_Matricule = Some matricule
    /\ forall (j : nat) (q : Proprietaire),
         (j < i)%nat -> owners !! j = Some q ->
         q !! key_Matricule <> Some matricule.

(* The fixed text in front of the count in the header line. *)
Definition total_label : jsstring :=
  bar_chart ++ lit " *Total des r" ++ [0xE9%N] ++ lit "sultats:* ".

(* One block of the export names the boat, the registration id and the
   trip date of its record. *)
Definition block_of (item : MergedData) (block : jsstring) : Prop :=
  substring (m_Barque item) block
  /\ substring (m_Matricule item) block
  /\ substring (m_DateMaree item) block.

(* A host whose zone keeps one offset z (in milliseconds) all year. *)
Definition fixed_zone_host (z : Z) : Host := {|
  toLowerCase := map ascii_lower;
  LocalTZA := fun _ _ => z;
  Date_parse_fallback := fun _ => None
|}.

(* The example record as it would be with the month and the year of
   01/01/2024. *)
Definition january_2024_record : MergedData :=
  {| m_Barque := lit "Barque1";
     m_Matricule := lit "123-456";
     m_DateMaree := lit "01/01/2024";
     m_Proprietaire := lit "Jean Dupont";
     m_Mois := 1;
     m_Annee := 2024;
     m_id := lit "row-0" |}.

(* ===================================================================== *)
(* 5b. The rest of the page and the file uploader                        *)
(* ===================================================================== *)

(* ---- uniqueProprietaires -------------------------------------------- *)

(* x < y on strings: code units compared left to right, a proper prefix
   being smaller. *)
Fixpoint str_ltb (s t : jsstring) : bool :=
  match s, t with
  | _, [] => false
  | [], _ :: _ => true
  | a :: s', b :: t' => (a <? b)%N || ((a =? b)%N && str_ltb s' t')
  end.

(* new Set(values): each value once, in the order of first insertion. *)
Definition Set_add (acc : list jsstring) (x : jsstring) : list jsstring :=
  if existsb (str_eqb x) acc then acc else acc ++ [x].

Definition Set_from (values : list jsstring) : list jsstring :=
  fold_left Set_add values [].

(* Array.prototype.sort() with the default comparator, on strings. The
   algorithm of the host is its own; the sort is stable and its result
   is the one of this insertion sort. *)
Fixpoint sort_insert (x : jsstring) (sorted : list jsstring) : list jsstring :=
  match sorted with
  | [] => [x]
  | y :: rest => if str_ltb y x then y :: sort_insert x rest else x :: y :: rest
  end.

Definition Array_sort (l : list jsstring) : list jsstring :=
  fold_right sort_insert [] l.

Definition uniqueProprietaires (mergedData : list MergedData) : list jsstring :=
  Array_sort (Set_from (map m_Proprietaire mergedData)).

(* ---- the page buttons ----------------------------------------------- *)

(* setCurrentPage(p => Math.max(1, p - 1)) *)
Definition previous_page (p : Z) : Z := Z.max 1 (p - 1).

(* setCurrentPage(p => Math.min(totalPages, p + 1)) *)
Definition next_page (totalPages p : Z) : Z := Z.min totalPages (p + 1).

(* disabled={currentPage === 1} and disabled={currentPage === totalPages} *)
Definition previous_disabled (currentPage : Z) : bool := currentPage =? 1.
Definition next_disabled (totalPages currentPage : Z) : bool :=
  currentPage =? totalPages.

(* The footer with the two buttons is rendered under
   filteredData.length > 0. *)
Definition footer_shown (filteredData : list MergedData) : bool :=
  (0 <? length filteredData)%nat.

(* ---- filteredData as one pass --------------------------------------- *)

(* The three tests of filteredData on one record, each counted only
   when its filter is set. *)
Definition keeps `{Host} (selectedProprietaire barqueFilter startDate endDate : jsstring)
    (item : MergedData) : bool :=
  (if truthy selectedProprietaire && negb (str_eqb selectedProprietaire (lit "all"))
   then owner_pred selectedProprietaire item else true)
  && (if truthy barqueFilter
      then text_pred (toLowerCase barqueFilter) item else true)
  && (if truthy startDate || truthy endDate
      then date_pred
             (option_map (fun d => setHours d 0 0 0 0)
                (if truthy startDate then Some (new_Date_string startDate) else None))
             (option_map (fun d => setHours d 23 59 59 999)
                (if truthy endDate then Some (new_Date_string endDate) else None))
             item
      else true).

(* ---- renumbering ---------------------------------------------------- *)

(* The rows with the ids row-k, row-(k+1), ... in order. *)
Fixpoint renumber_from (k : nat) (rows : list MergedData) : list MergedData :=
  match rows with
  | [] => []
  | r :: rest =>
      {| m_Barque := m_Barque r; m_Matricule := m_Matricule r;
         m_DateMaree := m_DateMaree r; m_Proprietaire := m_Proprietaire r;
         m_Mois := m_Mois r; m_Annee := m_Annee r;
         m_id := lit "row-" ++ decimal k |} :: renumber_from (S k) rest
  end.

(* No white space at either end. *)
Definition no_edge_space (s : jsstring) : Prop :=
  (forall c rest, s = c :: rest -> is_white_space c = false)
  /\ (forall c init, s = init ++ [c] -> is_white_space c = false).

(* The number a run of decimal digits writes. *)
Definition number_of (digits : jsstring) : Z := fst (digits_prefix 0 0 digits).

(* s holds no code unit c. *)
Definition free_of (c : N) (s : jsstring) : bool :=
  forallb (fun x => negb (code_eqb x c)) s.

(* ---- FileUploader (components/file-uploader.tsx) -------------------- *)

(* A File, as far as the uploader and the readers look at it. *)
Record File := {
  file_name : jsstring;
  file_text : jsstring
}.

(* The two useState cells of the component; null is None. *)
Record Uploader := {
  fileName : option jsstring;
  isDragging : bool
}.

Definition uploader_initial : Uploader :=
  {| fileName := None; isDragging := false |}.

(* Each handler gives the next state and the file passed to
   onFileSelect, if the handler calls it. A FileList is a list and
   files?.[0] its first element. *)
Definition handleFileChange (files : list File) (u : Uploader)
    : Uploader * option File :=
  match files !! 0%nat with
  | Some file =>
      ({| fileName := Some (file_name file); isDragging := isDragging u |},
       Some file)
  | None => (u, None)
  end.

Definition handleDrop (files : list File) (u : Uploader)
    : Uploader * option File :=
  let u := {| fileName := fileName u; isDragging := false |} in
  match files !! 0%nat with
  | Some file =>
      ({| fileName := Some (file_name file); isDragging := isDragging u |},
       Some file)
  | None => (u, None)
  end.

Definition handleDragOver (u : Uploader) : Uploader * option File :=
  ({| fileName := fileName u; isDragging := true |}, None).

Definition handleDragLeave (u : Uploader) : Uploader * option File :=
  ({| fileName := fileName u; isDragging := false |}, None).

Inductive UploaderEvent :=
| Change (files : list File)
| Dropped (files : list File)
| DragOver
| DragLeave.

Definition uploader_handle (ev : UploaderEvent) (u : Uploader)
    : Uploader * option File :=
  match ev with
  | Change files => handleFileChange files u
  | Dropped files => handleDrop files u
  | DragOver => handleDragOver u
  | DragLeave => handleDragLeave u
  end.

(* The component after a sequence of events, with the files it passed
   to onFileSelect, oldest first. *)
Definition uploader_run (events : list UploaderEvent) : Uploader * list File :=
  fold_left
    (fun '(u, selected) ev =>
       match uploader_handle ev u with
       | (u', Some file) => (u', selected ++ [file])
       | (u', None) => (u', selected)
       end)
    events (uploader_initial, []).

(* The file an event carries to the component, if any. *)
Definition event_file (ev : UploaderEvent) : option File :=
  match ev with
  | Change files | Dropped files => files !! 0%nat
  | DragOver | DragLeave => None
  end.

(* Three owner rows for the edge cases of the join: a Matricule with a
   trailing space, no Matricule column, and a second row for the
   Matricule of the example. *)
Definition untrimmed_owner : Proprietaire :=
  <[key_Matricule := lit "123-456 "]> (<[key_Barque := lit "Barque2"]> ∅).

Definition keyless_owner : Proprietaire :=
  <[key_Barque := lit "Barque3"]> ∅.

Definition duplicate_owner : Proprietaire :=
  <[key_Matricule := lit "123-456"]> (<[key_Barque := lit "Barque4"]> ∅).

(* ===================================================================== *)
(* 6. Lemmas on the string and list primitives                           *)
(* ===================================================================== *)

Lemma str_eqb_eq (s t : jsstring) : str_eqb s t = true <-> s = t.
Proof.
  revert t. induction s as [|a s IH]; intros [|b t]; simpl; try (split; congruence).
  unfold code_eqb. rewrite andb_true_iff, N.eqb_eq, IH.
  split; [intros [-> ->]; reflexivity | intros [= -> ->]; auto].
Qed.

Lemma str_eqb_refl (s : jsstring) : str_eqb s s = true.
Proof. apply str_eqb_eq. reflexivity. Qed.

Lemma starts_with_spec (n h : jsstring) :
  starts_with n h = true <-> exists after, h = n ++ after.
Proof.
  revert h. induction n as [|a n IH]; intros h; simpl.
  - split; [eauto | reflexivity].
  - destruct h as [|b h].
    + split; [discriminate | intros [x Hx]; discriminate].
    + unfold code_eqb. rewrite andb_true_iff, N.eqb_eq, IH. split.
      * intros [-> [x ->]]. eauto.
      * intros [x [= -> ->]]. eauto.
Qed.

Lemma includes_spec (h n : jsstring) :
  includes h n = true <-> substring n h.
Proof.
  unfold substring. induction h as [|c h IH]; simpl.
  - rewrite orb_false_r, starts_with_spec. split.
    + intros [x Hx]. exists [], x. exact Hx.
    + intros [b [a Ha]]. destruct b; [eauto | discriminate].
  - rewrite orb_true_iff, starts_with_spec, IH. split.
    + intros [[x Hx] | [b [a ->]]].
      * exists [], x. exact Hx.
      * exists (c :: b), a. reflexivity.
    + intros [[|c' b] [a Ha]].
      * left. eauto.
      * right. simpl in Ha. injection Ha as -> ->. eauto.
Qed.

(* ---- decimal rendering ---------------------------------------------- *)

Lemma uint_codes_value (d : Decimal.uint) (acc len : nat) :
  digits_prefix (Z.of_nat acc) len (uint_codes d)
  = (Z.of_nat (Nat.of_uint_acc d acc), (len + length (uint_codes d))%nat).
Proof.
  revert acc len. induction d; intros acc len; simpl uint_codes;
    [simpl; f_equal; lia | ..];
    cbn [digits_prefix is_digit N.leb N.compare Pos.compare Pos.compare_cont andb];
    unfold digit_value; simpl Nat.of_uint_acc; rewrite !Nat.tail_mul_spec;
    match goal with
    | |- digits_prefix ?a _ _ = (Z.of_nat (Nat.of_uint_acc _ ?b), _) =>
        replace a with (Z.of_nat b) by (simpl Z.of_N; lia)
    end;
    rewrite IHd; f_equal; simpl length; lia.
Qed.

(* The digits that decimal writes read back as the number. *)
Lemma decimal_reads_back (n : nat) :
  digits_prefix 0 0 (decimal n) = (Z.of_nat n, length (decimal n)).
Proof.
  unfold decimal.
  pose proof (uint_codes_value (Nat.to_uint n) 0 0) as Hv.
  change (Nat.of_uint_acc (Nat.to_uint n) 0) with (Nat.of_uint (Nat.to_uint n)) in Hv.
  rewrite DecimalNat.Unsigned.of_to in Hv. exact Hv.
Qed.

Lemma decimal_inj (n m : nat) : decimal n = decimal m -> n = m.
Proof.
  intros Heq. pose proof (decimal_reads_back n) as Hn.
  rewrite Heq, decimal_reads_back in Hn. injection Hn as Hn. lia.
Qed.

(* ---- lists ---------------------------------------------------------- *)

Lemma filter_sublist {A} (f : A -> bool) (l : list A) :
  List.filter f l `sublist_of` l.
Proof.
  induction l as [|x l IH]; simpl.
  - constructor.
  - destruct (f x); [apply sublist_skip | apply sublist_cons]; exact IH.
Qed.

Lemma elem_of_filter_bool {A} (f : A -> bool) (l : list A) (x : A) :
  x ∈ List.filter f l <-> x ∈ l /\ f x = true.
Proof. rewrite !list_elem_of_In. apply filter_In. Qed.

Lemma Math_ceil_div_eq (a b : Z) :
  0 < b -> Math_ceil_div a b = - ((- a) / b).
Proof.
  intros Hb. unfold Math_ceil_div, Qceiling, Qfloor, Qdiv, Qinv, Qmult, Qopp, inject_Z.
  destruct b as [|p|p]; try lia. simpl.
  rewrite Z.mul_1_r. reflexivity.
Qed.

Lemma totalPages_bounds (fd : list MergedData) :
  (totalPages fd - 1) * itemsPerPage < Z.of_nat (length fd)
  <= totalPages fd * itemsPerPage.
Proof.
  unfold totalPages, itemsPerPage. rewrite Math_ceil_div_eq by lia.
  pose proof (Z.div_mod (- Z.of_nat (length fd)) 10 ltac:(lia)).
  pose proof (Z.mod_pos_bound (- Z.of_nat (length fd)) 10 ltac:(lia)).
  lia.
Qed.

(* ===================================================================== *)
(* 7. The claims                                                         *)
(* ===================================================================== *)

(** C1 (the code at the example): with the owner row of the example and
    the two history lines, the parse-then-merge pipeline leaves exactly
    one merged record, the 999-999 trip being dropped; the record has
    month 1, but its year is 1, not 2024: Mois is read from the first
    component of 01/01/2024 (the day) and Annee from the second (the
    month). The order of the two uploads does not matter. *)
Theorem C1_example_pipeline_year_is_1 :
  mergedData example_session = [example_record]
  /\ mergedData (handleProprietairesUpload [example_owner]
                  (handleHistoriqueUpload example_history initial))
     = [example_record]
  /\ m_Mois example_record = 1
  /\ m_Annee example_record = 1
  /\ m_Annee example_record <> 2024.
Proof. vm_compute. repeat split; discriminate. Qed.

(** C2 (counterexample): totalPages is not at least 1 for every filtered
    list: it is 0 on the empty one. *)
Lemma C2_totalPages_not_always_positive :
  ~ (forall fd : list MergedData, 1 <= totalPages fd).
Proof. intros H. specialize (H []). vm_compute in H. apply H. reflexivity. Qed.

(** C2 (amended): for every filtered list, totalPages is the ceiling of
    count / pageSize, that is the one integer t with
    (t - 1) * pageSize < count <= t * pageSize; it is 0 exactly when the
    list is empty and at least 1 exactly when it is not. *)
Theorem C2_totalPages_is_ceiling (fd : list MergedData) :
  ((totalPages fd - 1) * itemsPerPage < Z.of_nat (length fd)
     <= totalPages fd * itemsPerPage)
  /\ (forall t : Z,
        (t - 1) * itemsPerPage < Z.of_nat (length fd) <= t * itemsPerPage ->
        t = totalPages fd)
  /\ (totalPages fd = 0 <-> fd = [])
  /\ (1 <= totalPages fd <-> fd <> []).
Proof.
  pose proof (totalPages_bounds fd) as Hb. unfold itemsPerPage in *.
  split; [exact Hb|]. split; [intros t Ht; lia|].
  destruct fd as [|x fd]; simpl length in *.
  - split; split; intros; try congruence; lia.
  - split; split; intros; try discriminate; lia.
Qed.

(** C5: for every merged list R and every filter state (owner, text,
    start date, end date), on every host, filteredData is a subsequence
    of R: it is obtained from R by deleting elements, so its records are
    records of R in the order of R. The function only reads R and the
    state; the Date objects it mutates with setHours are its own. *)
Theorem C5_filter_is_subsequence `{Host} (R : list MergedData)
    (selectedProprietaire barqueFilter startDate endDate : jsstring) :
  filteredData R selectedProprietaire barqueFilter startDate endDate
    `sublist_of` R
  /\ (forall r,
        r ∈ filteredData R selectedProprietaire barqueFilter startDate endDate ->
        r ∈ R).
Proof.
  assert (Hsub : filteredData R selectedProprietaire barqueFilter startDate endDate
                   `sublist_of` R).
  { unfold filteredData.
    repeat match goal with
           | |- context [if ?b then _ else _] => destruct b
           end;
      repeat (etransitivity; [apply filter_sublist|]); reflexivity. }
  split; [exact Hsub|]. intros r Hr. eapply sublist_subseteq; eauto.
Qed.

(* ---- pagination ----------------------------------------------------- *)

Lemma currentData_page (fd : list MergedData) (q : nat) :
  currentData fd (Z.of_nat (S q))
  = take 10 (drop (q * 10) fd).
Proof.
  unfold currentData, slice, slice_index, itemsPerPage.
  set (n := length fd).
  replace ((Z.of_nat (S q) - 1) * 10) with (Z.of_nat (q * 10)) by lia.
  replace (Z.of_nat (S q) * 10) with (Z.of_nat (q * 10) + 10) by lia.
  destruct (Z.ltb_spec (Z.of_nat (q * 10)) 0) as [?|_]; [lia|].
  destruct (Z.ltb_spec (Z.of_nat (q * 10) + 10) 0) as [?|_]; [lia|].
  destruct (Nat.le_gt_cases n (q * 10)) as [Hge|Hlt].
  - rewrite (drop_ge fd (q * 10)) by exact Hge.
    rewrite drop_ge by (fold n; lia).
    rewrite !take_nil. reflexivity.
  - replace (Z.to_nat (Z.min (Z.of_nat (q * 10)) (Z.of_nat n))) with (q * 10)%nat by lia.
    destruct (Nat.le_gt_cases (q * 10 + 10) n) as [Hfull|Hlast].
    + f_equal. lia.
    + rewrite (take_ge _ 10) by (rewrite length_drop; fold n; lia).
      apply take_ge. rewrite length_drop. fold n. lia.
Qed.

Lemma concat_chunks {A} (l : list A) (k : nat) :
  concat (map (fun q => take 10 (drop (q * 10) l)) (seq 0 k)) = take (k * 10) l.
Proof.
  induction k as [|k IH].
  - simpl. rewrite take_0. reflexivity.
  - rewrite seq_S, map_app, concat_app, IH. simpl.
    rewrite app_nil_r, take_take_drop. f_equal. lia.
Qed.

Lemma totalPages_nat (fd : list MergedData) :
  (length fd <= Z.to_nat (totalPages fd) * 10
   /\ (Z.to_nat (totalPages fd) * 10 < length fd + 10))%nat
  /\ 0 <= totalPages fd.
Proof.
  pose proof (totalPages_bounds fd) as Hb. unfold itemsPerPage in Hb. lia.
Qed.

(** C6: for every filtered list, the page slices of pages 1 to
    totalPages, concatenated in order, are the filtered list itself;
    every page before the last has pageSize records and the last has
    between 1 and pageSize; the record at index i sits on page
    i / pageSize + 1 at offset i mod pageSize, so each record appears
    once. *)
Theorem C6_pages_cover_exactly_once (fd : list MergedData) :
  concat (map (currentData fd) (page_numbers fd)) = fd
  /\ (forall p : Z, p ∈ page_numbers fd <-> 1 <= p <= totalPages fd)
  /\ Forall (fun p => p = totalPages fd \/ length (currentData fd p) = 10%nat)
       (page_numbers fd)
  /\ (fd = [] \/ (1 <= length (currentData fd (totalPages fd)) <= 10)%nat)
  /\ (forall i : nat,
        currentData fd (Z.of_nat (i / 10) + 1) !! (i mod 10)%nat = fd !! i).
Proof.
  destruct (totalPages_nat fd) as [[Hlo Hhi] Hpos].
  unfold page_numbers. split; [|split; [|split; [|split]]].
  - rewrite <- seq_shift, !map_map.
    rewrite (map_ext _ (fun q => take 10 (drop (q * 10) fd)))
      by (intros q; apply currentData_page).
    rewrite concat_chunks. apply take_ge. exact Hlo.
  - intros p. rewrite list_elem_of_In, in_map_iff. split.
    + intros [k [<- Hk]]. apply in_seq in Hk. lia.
    + intros Hp. exists (Z.to_nat p). split; [lia | apply in_seq; lia].
  - rewrite Forall_forall. intros p Hp.
    apply list_elem_of_In, in_map_iff in Hp as [k [<- Hk]]. apply in_seq in Hk.
    destruct k as [|q]; [lia|].
    destruct (Z.eq_dec (Z.of_nat (S q)) (totalPages fd)) as [?|Hne]; [left; assumption|].
    right. rewrite currentData_page, length_take, length_drop. lia.
  - destruct fd as [|x fd]; [left; reflexivity|right].
    simpl length in *.
    replace (totalPages (x :: fd)) with (Z.of_nat (S (Z.to_nat (totalPages (x :: fd)) - 1)))
      by lia.
    rewrite currentData_page, length_take, length_drop. simpl length. lia.
  - intros i. replace (Z.of_nat (i / 10) + 1) with (Z.of_nat (S (i / 10))) by lia.
    rewrite currentData_page.
    pose proof (Nat.mod_upper_bound i 10 ltac:(lia)).
    rewrite lookup_take_lt by lia. rewrite lookup_drop. f_equal.
    pose proof (Nat.div_mod_eq i 10). lia.
Qed.

(* ---- the merge ------------------------------------------------------ *)

Lemma merge_fold (owners : list Proprietaire) (trips : list Historique)
    (acc : MergeAcc) :
  fold_left (merge_step owners) trips acc
  = {| merged := merged acc ++ join_rows owners (idCounter acc) trips;
       idCounter := idCounter acc + length (join_rows owners (idCounter acc) trips) |}.
Proof.
  revert acc. induction trips as [|h rest IH]; intros [rows n]; simpl.
  - rewrite app_nil_r, Nat.add_0_r. reflexivity.
  - rewrite IH. unfold merge_step. simpl.
    destruct (List.find (owner_matches h) owners) as [p|]; simpl.
    + rewrite <- app_assoc. simpl. f_equal. lia.
    + reflexivity.
Qed.

Lemma merge_join_rows (owners : list Proprietaire) (trips : list Historique) :
  merge owners trips = join_rows owners 0 trips.
Proof. unfold merge. rewrite merge_fold. reflexivity. Qed.

Lemma owner_matches_spec (h : Historique) (p : Proprietaire) :
  owner_matches h p = true <-> p !! key_Matricule = Some (h_Matricule h).
Proof.
  unfold owner_matches. destruct (p !! key_Matricule) as [v|].
  - rewrite str_eqb_eq. split; congruence.
  - split; discriminate.
Qed.

Lemma has_owner_spec (owners : list Proprietaire) (h : Historique) :
  has_owner owners h = true
  <-> exists p, p ∈ owners /\ p !! key_Matricule = Some (h_Matricule h).
Proof.
  unfold has_owner. rewrite existsb_exists. split.
  - intros [p [Hin Hm]]. exists p. rewrite list_elem_of_In, <- owner_matches_spec. auto.
  - intros [p [Hin Hm]]. exists p. rewrite <- list_elem_of_In, owner_matches_spec. auto.
Qed.

Lemma find_has_owner (owners : list Proprietaire) (h : Historique) :
  has_owner owners h = match List.find (owner_matches h) owners with
                       | Some _ => true
                       | None => false
                       end.
Proof.
  unfold has_owner. induction owners as [|p owners IH]; simpl; [reflexivity|].
  destruct (owner_matches h p); simpl; [reflexivity | exact IH].
Qed.

Lemma find_first_owner (owners : list Proprietaire) (h : Historique)
    (p : Proprietaire) :
  List.find (owner_matches h) owners = Some p ->
  first_owner_of owners (h_Matricule h) p.
Proof.
  induction owners as [|q owners IH]; simpl; [discriminate|].
  destruct (owner_matches h q) eqn:Hq.
  - intros [= ->]. exists 0%nat. split; [reflexivity|].
    split; [apply owner_matches_spec; exact Hq|]. intros j q' Hj. lia.
  - intros Hf. destruct (IH Hf) as [i [Hi [Hm Hbefore]]].
    exists (S i). split; [exact Hi|]. split; [exact Hm|].
    intros [|j] q' Hj Hq'; simpl in Hq'.
    + injection Hq' as <-. rewrite <- owner_matches_spec, Hq. discriminate.
    + apply (Hbefore j q'); [lia | exact Hq'].
Qed.

Lemma field_or_carries (p : Proprietaire) (key : jsstring) :
  carries (field_or p key Inconnu) (p !! key).
Proof.
  unfold carries, field_or. destruct (p !! key) as [[|c v]|]; reflexivity.
Qed.

Lemma join_rows_trips (owners : list Proprietaire) (trips : list Historique)
    (i : nat) :
  map trip_of (join_rows owners i trips) = List.filter (has_owner owners) trips.
Proof.
  revert i. induction trips as [|h rest IH]; intros i; simpl; [reflexivity|].
  rewrite find_has_owner.
  destruct (List.find (owner_matches h) owners) as [p|]; simpl.
  - rewrite IH. destruct h; reflexivity.
  - apply IH.
Qed.

Lemma join_rows_owner (owners : list Proprietaire) (trips : list Historique)
    (i : nat) :
  Forall (fun r =>
            exists p, first_owner_of owners (m_Matricule r) p
                      /\ carries (m_Barque r) (p !! key_Barque)
                      /\ carries (m_Proprietaire r) (p !! key_Proprietaire))
    (join_rows owners i trips).
Proof.
  revert i. induction trips as [|h rest IH]; intros i; simpl; [constructor|].
  destruct (List.find (owner_matches h) owners) as [p|] eqn:Hf.
  - constructor; [|apply IH]. exists p. simpl.
    split; [apply find_first_owner; exact Hf|].
    split; apply field_or_carries.
  - apply IH.
Qed.

Lemma join_rows_ids (owners : list Proprietaire) (trips : list Historique)
    (i : nat) :
  map m_id (join_rows owners i trips)
  = map (fun k => lit "row-" ++ decimal k)
        (seq i (length (join_rows owners i trips))).
Proof.
  revert i. induction trips as [|h rest IH]; intros i; simpl; [reflexivity|].
  destruct (List.find (owner_matches h) owners) as [p|]; simpl.
  - rewrite IH. reflexivity.
  - apply IH.
Qed.

(** C4: for every owner list and trip list, the trips carried by the
    merge output are exactly the trips whose registration id is the
    Matricule of some owner, in their input order (one record per such
    trip, none for the others, and merge is a total function: no error);
    each output record takes its boat name and owner name from the first
    owner, scanning left to right, with that Matricule, each replaced by
    the placeholder Inconnu when the column is empty or absent. *)
Theorem C4_merge_joins_on_first_owner (owners : list Proprietaire)
    (trips : list Historique) :
  map trip_of (merge owners trips) = List.filter (has_owner owners) trips
  /\ (forall h, has_owner owners h = true
               <-> exists p, p ∈ owners /\ p !! key_Matricule = Some (h_Matricule h))
  /\ map trip_of (merge owners trips) `sublist_of` trips
  /\ Forall (fun r =>
               exists p, first_owner_of owners (m_Matricule r) p
                         /\ carries (m_Barque r) (p !! key_Barque)
                         /\ carries (m_Proprietaire r) (p !! key_Proprietaire))
       (merge owners trips).
Proof.
  rewrite merge_join_rows, join_rows_trips.
  split; [reflexivity|]. split; [apply has_owner_spec|].
  split; [apply filter_sublist | apply join_rows_owner].
Qed.

(** C10: for every owner list and trip list, the i-th record (from 0) of
    the merge output has the id row- followed by the decimal digits of
    i; the counter restarts at 0 on every pass, so running the effect
    again on unchanged inputs gives the same records, ids included. *)
Theorem C10_ids_are_row_index (owners : list Proprietaire)
    (trips : list Historique) :
  map m_id (merge owners trips)
  = map (fun i => lit "row-" ++ decimal i) (seq 0 (length (merge owners trips)))
  /\ (forall (i : nat) (r : MergedData),
        merge owners trips !! i = Some r -> m_id r = lit "row-" ++ decimal i)
  /\ (forall st : Dashboard, merge_effect (merge_effect st) = merge_effect st).
Proof.
  assert (Hids : map m_id (merge owners trips)
                 = map (fun i => lit "row-" ++ decimal i)
                       (seq 0 (length (merge owners trips)))).
  { rewrite merge_join_rows. apply join_rows_ids. }
  split; [exact Hids|]. split.
  - intros i r Hr.
    assert (Hi : (i < length (merge owners trips))%nat)
      by (eapply lookup_lt_Some; exact Hr).
    assert (Hm : map m_id (merge owners trips) !! i = Some (m_id r))
      by (rewrite list_lookup_fmap, Hr; reflexivity).
    rewrite Hids, list_lookup_fmap, lookup_seq_lt in Hm by exact Hi.
    injection Hm as Hm. symmetry. exact Hm.
  - intros st. unfold merge_effect.
    destruct ((0 <? length (proprietairesData st))%nat
              && (0 <? length (historiqueData st))%nat) eqn:Hguard;
      simpl; rewrite Hguard; reflexivity.
Qed.

(* ---- the export ----------------------------------------------------- *)

Lemma item_text_block (item : MergedData) : block_of item (item_text item).
Proof.
  unfold block_of, item_text, substring. repeat split.
  - exists (sailboat ++ lit " *"),
      (lit "* (" ++ m_Matricule item ++ lit ")" ++ nl ++ calendar ++ lit " "
       ++ m_DateMaree item).
    rewrite <- !app_assoc. reflexivity.
  - exists (sailboat ++ lit " *" ++ m_Barque item ++ lit "* ("),
      (lit ")" ++ nl ++ calendar ++ lit " " ++ m_DateMaree item).
    rewrite <- !app_assoc. reflexivity.
  - exists (sailboat ++ lit " *" ++ m_Barque item ++ lit "* (" ++ m_Matricule item
            ++ lit ")" ++ nl ++ calendar ++ lit " "), [].
    rewrite <- !app_assoc, app_nil_r. reflexivity.
Qed.

(** C8: on the empty filtered list handleCopyData gives the notice
    Aucune donnee and writes nothing, and only there; on a non-empty
    list it writes one string: the header (a fixed label followed by the
    decimal count), a blank line, then one block per record, in order,
    each naming the record's boat, registration id and trip date, with
    the fixed separator between consecutive blocks. *)
Theorem C8_export_format :
  handleCopyData [] = AucuneDonnee
  /\ (forall text, handleCopyData [] <> ClipboardWrite text)
  /\ (forall fd, handleCopyData fd = AucuneDonnee <-> fd = [])
  /\ (forall item rest,
        exists blocks,
          handleCopyData (item :: rest)
          = ClipboardWrite ((total_label ++ decimal (length (item :: rest)))
                            ++ nl ++ nl ++ join separator blocks)
          /\ Forall2 block_of (item :: rest) blocks)
  /\ (forall b, join separator [b] = b)
  /\ (forall b b' bs,
        join separator (b :: b' :: bs) = b ++ separator ++ join separator (b' :: bs)).
Proof.
  split; [reflexivity|]. split; [discriminate|]. split.
  - intros [|x fd]; unfold handleCopyData; cbn [length Nat.eqb];
      split; intros; congruence.
  - split; [|split; reflexivity].
    intros item rest. exists (map item_text (item :: rest)). split.
    + unfold handleCopyData, textToCopy, totalText, total_label. simpl length.
      cbn [Nat.eqb]. rewrite <- !app_assoc. reflexivity.
    + apply Forall2_fmap_r, Forall_Forall2_diag, Forall_forall.
      intros r _. apply item_text_block.
Qed.

(* ---- the history parser --------------------------------------------- *)

Lemma digit_not_white_space (d : N) : is_digit d = true -> is_white_space d = false.
Proof.
  unfold is_digit, is_white_space. rewrite andb_true_iff, !N.leb_le. intros [? ?].
  repeat match goal with
         | |- context [(?a <=? ?b)%N] => destruct (N.leb_spec a b); try lia
         | |- context [(?a =? ?b)%N] => destruct (N.eqb_spec a b); try lia
         end; reflexivity.
Qed.

Lemma trimStart_app_white (ws s : jsstring) :
  forallb is_white_space ws = true -> trimStart (ws ++ s) = trimStart s.
Proof.
  induction ws as [|c ws IH]; simpl; [reflexivity|].
  rewrite andb_true_iff. intros [-> H]. apply IH. exact H.
Qed.

Lemma trimStart_split (s : jsstring) :
  exists ws, s = ws ++ trimStart s /\ forallb is_white_space ws = true.
Proof.
  induction s as [|c s [ws [Hs Hws]]]; simpl.
  - exists []. split; reflexivity.
  - destruct (is_white_space c) eqn:Hc.
    + exists (c :: ws). simpl. rewrite Hc, Hws. split; [congruence | reflexivity].
    + exists []. split; reflexivity.
Qed.

Lemma digits_prefix_len (s : jsstring) (acc : Z) (len : nat) :
  (len <= snd (digits_prefix acc len s))%nat.
Proof.
  revert acc len. induction s as [|c s IH]; intros acc len; simpl; [lia|].
  destruct (is_digit c); simpl; [|lia].
  specialize (IH (10 * acc + digit_value c) (S len)). lia.
Qed.

Lemma digits_prefix_zero (s : jsstring) (acc : Z) :
  snd (digits_prefix acc 0 s) = 0%nat
  <-> match s with [] => True | c :: _ => is_digit c = false end.
Proof.
  destruct s as [|c s]; simpl; [tauto|].
  destruct (is_digit c) eqn:Hc; simpl.
  - pose proof (digits_prefix_len s (10 * acc + digit_value c) 1).
    split; [lia | discriminate].
  - tauto.
Qed.

Lemma parseInt_NaN_iff (s : jsstring) :
  parseInt s = None <-> ~ numeric_start s.
Proof.
  unfold parseInt.
  assert (Hnone : forall sign S2,
             match digits_prefix 0 0 S2 with
             | (_, O) => None
             | (v, S _) => Some (sign * v)
             end = None <-> snd (digits_prefix 0 0 S2) = 0%nat).
  { intros sign S2. destruct (digits_prefix 0 0 S2) as [v [|n]]; simpl;
      split; congruence. }
  split.
  - intros Hp [ws [sg [d [rest [-> [Hws [Hsg Hd]]]]]]].
    rewrite trimStart_app_white in Hp by exact Hws.
    pose proof (digit_not_white_space d Hd) as Hdw.
    assert (Hd45 : (d =? 45)%N = false /\ (d =? 43)%N = false).
    { unfold is_digit in Hd. rewrite andb_true_iff, !N.leb_le in Hd.
      split; apply N.eqb_neq; lia. }
    destruct Hd45 as [H45 H43].
    destruct Hsg as [-> | [-> | ->]]; cbn [app trimStart] in Hp.
    + rewrite Hdw, H45, H43 in Hp. cbv beta iota in Hp. apply Hnone in Hp.
      apply digits_prefix_zero in Hp. congruence.
    + change (is_white_space 43) with false in Hp.
      change (43 =? 45)%N with false in Hp. change (43 =? 43)%N with true in Hp.
      cbv beta iota in Hp. apply Hnone in Hp.
      apply digits_prefix_zero in Hp. congruence.
    + change (is_white_space 45) with false in Hp.
      change (45 =? 45)%N with true in Hp.
      cbv beta iota in Hp. apply Hnone in Hp.
      apply digits_prefix_zero in Hp. congruence.
  - intros Hn. destruct (trimStart_split s) as [ws [Hs Hws]].
    destruct (trimStart s) as [|c rest] eqn:Ht; [reflexivity|].
    assert (Hdig : forall sg d rest',
               c :: rest = sg ++ d :: rest' ->
               (sg = [] \/ sg = [43%N] \/ sg = [45%N]) -> is_digit d = false).
    { intros sg d rest' Heq Hsg. destruct (is_digit d) eqn:Hd; [|reflexivity].
      exfalso. apply Hn. exists ws, sg, d, rest'. rewrite <- Heq. auto. }
    destruct (N.eqb_spec c 45) as [->|Hne45].
    + apply Hnone, digits_prefix_zero. destruct rest as [|d rest']; [exact I|].
      apply (Hdig [45%N] d rest'); auto.
    + destruct (N.eqb_spec c 43) as [->|Hne43].
      * apply Hnone, digits_prefix_zero. destruct rest as [|d rest']; [exact I|].
        apply (Hdig [43%N] d rest'); auto.
      * apply Hnone, digits_prefix_zero. apply (Hdig [] c rest); auto.
Qed.

Lemma or_zero_NaN (n : option Z) : n = None -> or_zero n = 0.
Proof. intros ->. reflexivity. Qed.

Lemma trimEnd_split (s : jsstring) :
  exists ws, s = trimEnd s ++ ws /\ forallb is_white_space ws = true.
Proof.
  destruct (trimStart_split (rev s)) as [ws [Hs Hws]].
  exists (rev ws). split.
  - unfold trimEnd. rewrite <- rev_app_distr, <- Hs, rev_involutive. reflexivity.
  - rewrite forallb_forall in *. intros c Hc. apply Hws, in_rev. exact Hc.
Qed.

Lemma numeric_has_numeric_start (c : jsstring) :
  numeric c = true -> numeric_start c.
Proof.
  unfold numeric. cbv zeta. intros Hnum.
  apply andb_true_iff in Hnum as [Hne Hdig].
  destruct (trimStart_split c) as [ws [Hc Hws]].
  destruct (trimEnd_split (trimStart c)) as [ws' [Ht _]].
  fold (trim c) in Ht.
  assert (Hshape : exists sg d rest,
             trim c = sg ++ d :: rest
             /\ (sg = [] \/ sg = [43%N] \/ sg = [45%N])
             /\ is_digit d = true).
  { destruct (trim c) as [|x t]; [discriminate|].
    destruct (N.eqb_spec x 45) as [->|H45].
    - simpl in Hne, Hdig. destruct t as [|d rest]; [discriminate|].
      simpl in Hdig. apply andb_true_iff in Hdig as [Hd _].
      exists [45%N], d, rest. auto.
    - destruct (N.eqb_spec x 43) as [->|H43].
      + simpl in Hne, Hdig. destruct t as [|d rest]; [discriminate|].
        simpl in Hdig. apply andb_true_iff in Hdig as [Hd _].
        exists [43%N], d, rest. auto.
      + simpl in Hdig. apply andb_true_iff in Hdig as [Hd _].
        exists [], x, t. auto. }
  destruct Hshape as [sg [d [rest [Hshape [Hsg Hd]]]]].
  exists ws, sg, d, (rest ++ ws'). split; [|auto].
  rewrite Hc, Ht, Hshape, <- !app_assoc. reflexivity.
Qed.

(** C9 (counterexample): a component that is not a number does not
    always give 0: in the line A;12abc/3x/2024 the date field is
    12abc/3x/2024, its first two components 12abc and 3x are not
    numbers, and the record has Mois 12 and Annee 3. *)
Lemma C9_non_numeric_component_not_zero :
  (line_date_field (lit "A;12abc/3x/2024") = lit "12abc/3x/2024"
   /\ numeric (lit "12abc") = false /\ numeric (lit "3x") = false
   /\ h_Mois (parse_line (lit "A;12abc/3x/2024")) = 12
   /\ h_Annee (parse_line (lit "A;12abc/3x/2024")) = 3)
  /\ ~ (forall line c,
          split 47 (line_date_field line) !! 0%nat = Some c ->
          numeric c = false -> h_Mois (parse_line line) = 0).
Proof.
  split; [repeat split|].
  intros H.
  specialize (H (lit "A;12abc/3x/2024") (lit "12abc") eq_refl eq_refl).
  vm_compute in H. discriminate.
Qed.

(** C9 (amended): every line gives a record, whose date string is the
    date field of the line (parse_line is total, and the parsed history
    has one record per non-blank line, in order); in it, Mois is 0 when
    the first /-separated component of the date field has no number at
    its start (after optional white space and an optional sign, no
    decimal digit), and Annee is 0 when the second component is missing
    or has no number at its start. Such a component is never a
    number. *)
Theorem C9_no_leading_number_gives_zero (line : jsstring) :
  let r := parse_line line in
  let parts := split 47 (line_date_field line) in
  h_DateMaree r = line_date_field line
  /\ (forall c, parts !! 0%nat = Some c -> ~ numeric_start c -> h_Mois r = 0)
  /\ (parts !! 0%nat = None -> h_Mois r = 0)
  /\ (forall c, parts !! 1%nat = Some c -> ~ numeric_start c -> h_Annee r = 0)
  /\ (parts !! 1%nat = None -> h_Annee r = 0)
  /\ (forall c, ~ numeric_start c -> numeric c = false)
  /\ (forall text,
        parse_historique text = map parse_line (history_lines text)
        /\ length (parse_historique text) = length (history_lines text)
        /\ forall l, l ∈ history_lines text
                     <-> l ∈ split 10 text /\ trim l <> []).
Proof.
  cbv zeta.
  assert (Hfield : h_DateMaree (parse_line line) = line_date_field line).
  { unfold parse_line, line_date_field. cbn [h_DateMaree].
    destruct (split 59 line) as [|a [|b l]]; try reflexivity.
    destruct b; reflexivity. }
  split; [exact Hfield|]. rewrite <- Hfield.
  unfold parse_line. cbn [h_DateMaree h_Mois h_Annee].
  set (parts := split 47 _).
  split; [|split; [|split; [|split; [|split]]]].
  - intros c Hc Hn. rewrite Hc. apply or_zero_NaN. simpl.
    apply parseInt_NaN_iff. exact Hn.
  - intros Hc. rewrite Hc. reflexivity.
  - intros c Hc Hn. rewrite Hc. apply or_zero_NaN. simpl.
    apply parseInt_NaN_iff. exact Hn.
  - intros Hc. rewrite Hc. reflexivity.
  - intros c Hn. destruct (numeric c) eqn:Hnum; [|reflexivity].
    exfalso. apply Hn, numeric_has_numeric_start. exact Hnum.
  - intros text. split; [reflexivity|]. split.
    + unfold parse_historique. apply length_map.
    + intros l. unfold history_lines. rewrite elem_of_filter_bool.
      unfold non_blank, truthy. destruct (trim l); split; intros [? ?];
        split; auto; congruence.
Qed.

(* ---- the filters ---------------------------------------------------- *)

Lemma filteredData_text_only `{Host} (R : list MergedData) (txt : jsstring) :
  filteredData R (lit "all") txt [] []
  = if truthy txt then List.filter (text_pred (toLowerCase txt)) R else R.
Proof. reflexivity. Qed.

Lemma filteredData_dates_only `{Host} (R : list MergedData) (sd ed : jsstring) :
  filteredData R (lit "all") [] sd ed
  = if truthy sd || truthy ed
    then List.filter
           (date_pred
              (option_map (fun d => setHours d 0 0 0 0)
                 (if truthy sd then Some (new_Date_string sd) else None))
              (option_map (fun d => setHours d 23 59 59 999)
                 (if truthy ed then Some (new_Date_string ed) else None))) R
    else R.
Proof. reflexivity. Qed.

Lemma text_pred_spec `{Host} (needle : jsstring) (r : MergedData) :
  text_pred needle r = true
  <-> substring needle (toLowerCase (m_Matricule r))
      \/ substring needle (toLowerCase (m_Barque r)).
Proof. unfold text_pred. rewrite orb_true_iff, !includes_spec. reflexivity. Qed.

Lemma example_merged : mergedData example_session = [example_record].
Proof. vm_compute. reflexivity. Qed.

Ltac lower_ascii Hlow :=
  repeat (rewrite Hlow by (repeat constructor)).

(** C7: when the free-text filter is not empty, a record passes
    filteredData exactly when it passes the other filters and the
    lower-cased filter text is a substring of the lower-cased Matricule
    or of the lower-cased Barque; with no other filter, exactly when it
    is a merged record with that property. On a host whose toLowerCase
    is the usual one on ASCII, the one-record merged set of the example
    is returned whole for the text 123 and emptied for zzz. *)
Theorem C7_text_filter `{Host} (Hlow : lowers_ascii _) :
  (forall R sel txt sd ed r,
      txt <> [] ->
      (r ∈ filteredData R sel txt sd ed
       <-> r ∈ filteredData R sel [] sd ed
           /\ (substring (toLowerCase txt) (toLowerCase (m_Matricule r))
               \/ substring (toLowerCase txt) (toLowerCase (m_Barque r)))))
  /\ (forall R txt r,
        txt <> [] ->
        (r ∈ filteredData R (lit "all") txt [] []
         <-> r ∈ R
             /\ (substring (toLowerCase txt) (toLowerCase (m_Matricule r))
                 \/ substring (toLowerCase txt) (toLowerCase (m_Barque r)))))
  /\ filteredData (mergedData example_session) (lit "all") (lit "123") [] []
     = mergedData example_session
  /\ length (mergedData example_session) = 1%nat
  /\ filteredData (mergedData example_session) (lit "all") (lit "zzz") [] [] = [].
Proof.
  split; [|split].
  - intros R sel [|c txt] sd ed r Htxt; [congruence|].
    unfold filteredData. cbv zeta. cbn [truthy].
    destruct (truthy sel && negb (str_eqb sel (lit "all")));
      destruct (truthy sd || truthy ed);
      rewrite ?elem_of_filter_bool, text_pred_spec; tauto.
  - intros R [|c txt] r Htxt; [congruence|].
    rewrite filteredData_text_only. cbn [truthy].
    rewrite elem_of_filter_bool, text_pred_spec. reflexivity.
  - rewrite example_merged, !filteredData_text_only.
    unfold lowers_ascii in Hlow.
    cbn [truthy lit map list_ascii_of_string List.filter].
    unfold text_pred, example_record. cbn [m_Matricule m_Barque].
    lower_ascii Hlow. vm_compute. repeat split.
Qed.

(* ---- the date range on the example ---------------------------------- *)

Lemma setHours_after_epoch `{Host} (Hzone : zone_within_a_day _)
    (t hour min sec ms y : Z) :
  2 * msPerDay <= t -> 0 <= MakeTime hour min sec ms ->
  setHours (Some t) hour min sec ms = Some y -> 0 < y.
Proof.
  intros Ht Htime. unfold setHours, TimeClip, UTC, LocalTime, MakeDate, Day.
  destruct (Z.abs _ >? _); [discriminate|]. intros [= <-].
  pose proof (Hzone t true) as Hz1.
  set (d := (t + LocalTZA t true) / msPerDay).
  pose proof (Hzone (d * msPerDay + MakeTime hour min sec ms) false) as Hz2.
  assert (Hd : 1 <= d).
  { apply Z.div_le_lower_bound; unfold msPerDay in *; lia. }
  unfold msPerDay in *. nia.
Qed.

Lemma example_itemDate_before_epoch `{Host} (Hzone : zone_within_a_day _) (x : Z) :
  new_Date_ymd (m_Annee example_record) (m_Mois example_record - 1) 1 = Some x ->
  x < 0.
Proof.
  unfold new_Date_ymd, example_record, TimeClip, UTC. cbn [m_Annee m_Mois].
  change (MakeDate (MakeDay (if (0 <=? 1) && (1 <=? 99) then 1900 + 1 else 1) (1 - 1) 1)
            (MakeTime 0 0 0 0)) with (-2177452800000).
  destruct (Z.abs _ >? _); [discriminate|]. intros [= <-].
  pose proof (Hzone (-2177452800000) false). unfold msPerDay in *. lia.
Qed.

Lemma date_pred_example_false `{Host} (Hzone : zone_within_a_day _)
    (t : Z) (e : option (option Z)) :
  2 * msPerDay <= t ->
  date_pred (Some (setHours (Some t) 0 0 0 0)) e example_record = false.
Proof.
  intros Ht. unfold date_pred.
  assert (Hge : date_geb (new_Date_ymd (m_Annee example_record)
                            (m_Mois example_record - 1) 1)
                  (setHours (Some t) 0 0 0 0) = false).
  { destruct (new_Date_ymd _ _ _) as [x|] eqn:Hx; [|reflexivity].
    destruct (setHours (Some t) 0 0 0 0) as [y|] eqn:Hy; [|reflexivity].
    apply example_itemDate_before_epoch in Hx; [|exact Hzone].
    apply setHours_after_epoch in Hy; [|exact Hzone|exact Ht|vm_compute; discriminate].
    simpl. apply Z.leb_gt. lia. }
  cbv zeta. destruct e; rewrite Hge; reflexivity.
Qed.

(** C3 (the code at the example): the comparison date of a record is
    new Date(Annee, Mois - 1, 1), the first day of (year, month). The
    merged record of the line 123-456;01/01/2024 has Annee 1, so its
    comparison date is local midnight of 1 January 1901, and on every
    host whose zone is within a day of UTC the range 2024-01-01 to
    2024-01-31 excludes it, as does the start date 2024-02-01 alone. *)
Theorem C3_example_record_out_of_range `{Host} (Hzone : zone_within_a_day _) :
  (forall start end_ item,
      date_pred (Some start) (Some end_) item
      = date_geb (new_Date_ymd (m_Annee item) (m_Mois item - 1) 1) start
        && date_leb (new_Date_ymd (m_Annee item) (m_Mois item - 1) 1) end_)
  /\ new_Date_ymd (m_Annee example_record) (m_Mois example_record - 1) 1
     = TimeClip (UTC (MakeDate (MakeDay 1901 0 1) 0))
  /\ filteredData (mergedData example_session) (lit "all") []
       (lit "2024-01-01") (lit "2024-01-31") = []
  /\ filteredData (mergedData example_session) (lit "all") []
       (lit "2024-02-01") [] = [].
Proof.
  split; [reflexivity|]. split; [reflexivity|].
  rewrite example_merged, !filteredData_dates_only.
  change (truthy (lit "2024-01-01")) with true.
  change (truthy (lit "2024-01-31")) with true.
  change (truthy (lit "2024-02-01")) with true.
  change (truthy []) with false.
  change (new_Date_string (lit "2024-01-01")) with (Some 1704067200000).
  change (new_Date_string (lit "2024-02-01")) with (Some 1706745600000).
  cbn [orb option_map List.filter].
  rewrite !date_pred_example_false by (exact Hzone || (unfold msPerDay; lia)).
  split; reflexivity.
Qed.

Lemma fixed_zone_within_a_day (z : Z) :
  - msPerDay < z < msPerDay -> zone_within_a_day (fixed_zone_host z).
Proof. intros Hz t isUTC. exact Hz. Qed.

(* The date filter itself is sound on a record that carries the month
   and the year of its date: in a zone of fixed offset it keeps the
   January 2024 record for the range of the example. *)
Lemma date_range_keeps_january_2024 (z : Z) :
  - msPerDay < z < msPerDay ->
  @filteredData (fixed_zone_host z) [january_2024_record] (lit "all") []
    (lit "2024-01-01") (lit "2024-01-31") = [january_2024_record].
Proof.
  intros Hz. rewrite filteredData_dates_only.
  change (truthy (lit "2024-01-01")) with true.
  change (truthy (lit "2024-01-31")) with true.
  change (@new_Date_string (fixed_zone_host z) (lit "2024-01-01"))
    with (Some 1704067200000).
  change (@new_Date_string (fixed_zone_host z) (lit "2024-01-31"))
    with (Some 1706659200000).
  cbn [orb option_map List.filter].
  assert (Hkeep : @date_pred (fixed_zone_host z)
                    (Some (@setHours (fixed_zone_host z) (Some 1704067200000) 0 0 0 0))
                    (Some (@setHours (fixed_zone_host z) (Some 1706659200000) 23 59 59 999))
                    january_2024_record = true).
  { unfold date_pred, new_Date_ymd, setHours, UTC, LocalTime, Day, TimeClip,
      january_2024_record.
    cbn [m_Annee m_Mois LocalTZA fixed_zone_host].
    change (MakeDate (MakeDay (if (0 <=? 2024) && (2024 <=? 99) then 1900 + 2024 else 2024)
                        (1 - 1) 1) (MakeTime 0 0 0 0)) with 1704067200000.
    unfold MakeDate, MakeTime, msPerDay in *.
    pose proof (Z.div_mod (1704067200000 + z) 86400000 ltac:(lia)) as Hd1.
    pose proof (Z.mod_pos_bound (1704067200000 + z) 86400000 ltac:(lia)) as Hm1.
    pose proof (Z.div_mod (1706659200000 + z) 86400000 ltac:(lia)) as Hd2.
    pose proof (Z.mod_pos_bound (1706659200000 + z) 86400000 ltac:(lia)) as Hm2.
    set (d1 := (1704067200000 + z) / 86400000) in *.
    set (d2 := (1706659200000 + z) / 86400000) in *.
    assert (19722 <= d1 <= 19723) by lia.
    assert (19752 <= d2 <= 19753) by lia.
    repeat match goal with
           | |- context [Z.abs ?a >? ?b] =>
               destruct (Z.gtb_spec (Z.abs a) b); [lia|]
           end.
    unfold date_geb, date_leb. apply andb_true_iff. rewrite !Z.leb_le. lia. }
  rewrite Hkeep. reflexivity.
Qed.

(* ---- the effect ----------------------------------------------------- *)

(* The effect recomputes the merge exactly when both collections are
   non-empty, and then goes back to page 1; otherwise it leaves the
   state as it is. *)
Lemma merge_effect_spec (st : Dashboard) :
  (proprietairesData st <> [] /\ historiqueData st <> [] ->
   mergedData (merge_effect st) = merge (proprietairesData st) (historiqueData st)
   /\ currentPage (merge_effect st) = 1)
  /\ (proprietairesData st = [] \/ historiqueData st = [] -> merge_effect st = st).
Proof.
  unfold merge_effect.
  destruct (proprietairesData st) as [|p ps], (historiqueData st) as [|h hs];
    simpl; split; intros; intuition congruence.
Qed.

(* ---- instances ------------------------------------------------------ *)

Lemma sample_host_lowers_ascii : lowers_ascii sample_host.
Proof. intros s _. reflexivity. Defined.

Lemma sample_host_zone : zone_within_a_day sample_host.
Proof. intros t isUTC. simpl. unfold msPerDay. lia. Defined.

(** C7, at the sample host: the text 123 returns the merged set of the
    example and zzz empties it. *)
Lemma C7_text_filter_witness :
  lowers_ascii sample_host
  /\ @filteredData sample_host (mergedData example_session) (lit "all")
       (lit "123") [] [] = mergedData example_session
  /\ @filteredData sample_host (mergedData example_session) (lit "all")
       (lit "zzz") [] [] = [].
Proof.
  split; [intros s _; reflexivity|].
  pose proof (@C7_text_filter sample_host (fun s _ => eq_refl)) as [_ [_ [H123 [_ Hzzz]]]].
  split; [exact H123 | exact Hzzz].
Defined.

(** C3, at the sample host (one hour east of UTC): both ranges exclude
    the merged record of the example. *)
Lemma C3_example_record_out_of_range_witness :
  zone_within_a_day sample_host
  /\ @filteredData sample_host (mergedData example_session) (lit "all") []
       (lit "2024-01-01") (lit "2024-01-31") = []
  /\ @filteredData sample_host (mergedData example_session) (lit "all") []
       (lit "2024-02-01") [] = [].
Proof.
  split; [intros t isUTC; simpl; unfold msPerDay; lia|].
  pose proof (@C3_example_record_out_of_range sample_host sample_host_zone)
    as [_ [_ [Hrange Hstart]]].
  split; [exact Hrange | exact Hstart].
Defined.

(* ===================================================================== *)
(* 8. Further properties of the page                                     *)
(* ===================================================================== *)

(* ---- trim and split ------------------------------------------------- *)

Lemma trimStart_head (s : jsstring) (c : N) (rest : jsstring) :
  trimStart s = c :: rest -> is_white_space c = false.
Proof.
  induction s as [|a s IH]; simpl; [discriminate|].
  destruct (is_white_space a) eqn:Ha; [exact IH|].
  intros [= <- <-]. exact Ha.
Qed.

Lemma trimStart_fixed (s : jsstring) :
  match s with c :: _ => is_white_space c = false | [] => True end ->
  trimStart s = s.
Proof. destruct s as [|c s]; simpl; [reflexivity|]. intros ->. reflexivity. Qed.

Lemma trimStart_idem (s : jsstring) : trimStart (trimStart s) = trimStart s.
Proof.
  apply trimStart_fixed. destruct (trimStart s) as [|c rest] eqn:Hs; [exact I|].
  eapply trimStart_head. exact Hs.
Qed.

Lemma trimEnd_idem (s : jsstring) : trimEnd (trimEnd s) = trimEnd s.
Proof. unfold trimEnd. rewrite rev_involutive, trimStart_idem. reflexivity. Qed.

Lemma trimEnd_keeps_head (s : jsstring) (c : N) (rest : jsstring) :
  s = c :: rest -> is_white_space c = false ->
  exists rest', trimEnd s = c :: rest'.
Proof.
  intros -> Hc. destruct (trimEnd_split (c :: rest)) as [ws [Hs Hws]].
  destruct (trimEnd (c :: rest)) as [|c' rest'] eqn:Ht.
  - simpl in Hs. subst ws. simpl in Hws. rewrite Hc in Hws. discriminate.
  - simpl in Hs. injection Hs as <- _. eauto.
Qed.

Lemma trim_head (s : jsstring) (c : N) (rest : jsstring) :
  trim s = c :: rest -> is_white_space c = false.
Proof.
  unfold trim. intros Ht.
  destruct (trimStart s) as [|a s'] eqn:Hs; [discriminate|].
  pose proof (trimStart_head _ _ _ Hs) as Ha.
  destruct (trimEnd_keeps_head (a :: s') a s' eq_refl Ha) as [r Hr].
  rewrite Hr in Ht. injection Ht as <- _. exact Ha.
Qed.

Lemma trimEnd_last (s init : jsstring) (c : N) :
  trimEnd s = init ++ [c] -> is_white_space c = false.
Proof.
  unfold trimEnd. intros Ht.
  apply (f_equal (@rev N)) in Ht. rewrite rev_involutive, rev_app_distr in Ht.
  simpl in Ht. eapply trimStart_head. exact Ht.
Qed.

Lemma trim_idem (s : jsstring) : trim (trim s) = trim s.
Proof.
  unfold trim at 1. rewrite trimStart_fixed.
  - unfold trim. apply trimEnd_idem.
  - destruct (trim s) as [|c rest] eqn:Ht; [exact I|]. eapply trim_head. exact Ht.
Qed.

Lemma trim_no_edge_space (s : jsstring) : no_edge_space (trim s).
Proof.
  split.
  - intros c rest. apply trim_head.
  - intros c init. unfold trim. apply trimEnd_last.
Qed.

Lemma trimStart_snoc_white (s : jsstring) (c : N) :
  is_white_space c = true ->
  trimStart (s ++ [c])
  = match trimStart s with [] => [] | _ :: _ => trimStart s ++ [c] end.
Proof.
  intros Hc. induction s as [|a s IH]; simpl.
  - rewrite Hc. reflexivity.
  - destruct (is_white_space a); [exact IH | reflexivity].
Qed.

Lemma trimEnd_snoc_white (s : jsstring) (c : N) :
  is_white_space c = true -> trimEnd (s ++ [c]) = trimEnd s.
Proof.
  intros Hc. unfold trimEnd. rewrite rev_app_distr. simpl. rewrite Hc. reflexivity.
Qed.

Lemma trim_snoc_white (s : jsstring) (c : N) :
  is_white_space c = true -> trim (s ++ [c]) = trim s.
Proof.
  intros Hc. unfold trim. rewrite trimStart_snoc_white by exact Hc.
  destruct (trimStart s) as [|a s'] eqn:Hs; [reflexivity|].
  apply trimEnd_snoc_white. exact Hc.
Qed.

Lemma trimmed_or_empty_trim (o : option jsstring) :
  trimmed_or_empty o = match o with Some v => trim v | None => [] end.
Proof. destruct o as [[|c v]|]; reflexivity. Qed.

Lemma split_nonempty (sep : N) (s : jsstring) : split sep s <> [].
Proof.
  induction s as [|c s IH]; simpl; [discriminate|].
  destruct (code_eqb c sep); [discriminate|].
  destruct (split sep s); discriminate.
Qed.

Lemma split_app_sep (sep : N) (a b : jsstring) :
  split sep (a ++ sep :: b) = split sep a ++ split sep b.
Proof.
  induction a as [|c a IH]; simpl.
  - unfold code_eqb. rewrite N.eqb_refl. reflexivity.
  - destruct (code_eqb c sep).
    + rewrite IH. reflexivity.
    + rewrite IH. pose proof (split_nonempty sep a).
      destruct (split sep a); [congruence | reflexivity].
Qed.

Lemma split_snoc (sep : N) (s : jsstring) (c : N) :
  code_eqb c sep = false ->
  exists init last,
    split sep s = init ++ [last]
    /\ split sep (s ++ [c]) = init ++ [last ++ [c]].
Proof.
  intros Hc. induction s as [|a s [init [last [Hs Hsc]]]]; simpl.
  - rewrite Hc. exists [], []. split; reflexivity.
  - destruct (code_eqb a sep).
    + exists ([] :: init), last. rewrite Hs, Hsc. split; reflexivity.
    + rewrite Hs, Hsc. destruct init as [|p init].
      * exists [], (a :: last). split; reflexivity.
      * exists ((a :: p) :: init), last. split; reflexivity.
Qed.

Lemma trimmed_field_snoc_cr (line : jsstring) (i : nat) :
  trimmed_or_empty (split 59 (line ++ [13%N]) !! i)
  = trimmed_or_empty (split 59 line !! i).
Proof.
  destruct (split_snoc 59 line 13 eq_refl) as [init [last [Hs Hsc]]].
  rewrite Hs, Hsc, !trimmed_or_empty_trim.
  destruct (Nat.lt_trichotomy i (length init)) as [Hlt|[->|Hgt]].
  - rewrite !lookup_app_l by exact Hlt. reflexivity.
  - rewrite !list_lookup_middle by reflexivity. apply trim_snoc_white. reflexivity.
  - rewrite !lookup_ge_None_2 by (rewrite length_app; simpl; lia). reflexivity.
Qed.

Lemma split_free (sep : N) (s : jsstring) :
  free_of sep s = true -> split sep s = [s].
Proof.
  unfold free_of. induction s as [|c s IH]; simpl; [reflexivity|].
  rewrite andb_true_iff, negb_true_iff. intros [-> Hs].
  rewrite (IH Hs). reflexivity.
Qed.

Lemma free_of_app (c : N) (a b : jsstring) :
  free_of c (a ++ b) = free_of c a && free_of c b.
Proof. unfold free_of. apply forallb_app. Qed.

Lemma split_join (sep : N) (ls : list jsstring) :
  Forall (fun l => free_of sep l = true) ls -> ls <> [] ->
  split sep (join [sep] ls) = ls.
Proof.
  induction ls as [|l ls IH]; intros Hfree Hne; [congruence|].
  apply Forall_cons in Hfree as [Hl Hls]. destruct ls as [|l' ls].
  - simpl. apply split_free. exact Hl.
  - change (join [sep] (l :: l' :: ls)) with (l ++ sep :: join [sep] (l' :: ls)).
    rewrite split_app_sep, (split_free sep l Hl), IH by (assumption || discriminate).
    reflexivity.
Qed.

Lemma parse_joined_lines (ls : list jsstring) :
  Forall (fun l => free_of 10 l = true) ls ->
  parse_historique (join nl ls) = map parse_line (List.filter non_blank ls).
Proof.
  intros Hfree. unfold parse_historique, history_lines.
  destruct ls as [|l ls]; [reflexivity|].
  unfold nl. rewrite split_join by (assumption || discriminate). reflexivity.
Qed.

Lemma with_carriage_returns (ls : list jsstring) :
  map parse_line (List.filter non_blank (map (fun l => l ++ [13%N]) ls))
  = map parse_line (List.filter non_blank ls).
Proof.
  induction ls as [|l ls IH]; [reflexivity|]. simpl.
  assert (Hb : non_blank (l ++ [13%N]) = non_blank l)
    by (unfold non_blank; rewrite trim_snoc_white by reflexivity; reflexivity).
  assert (Hp : parse_line (l ++ [13%N]) = parse_line l)
    by (unfold parse_line; cbv zeta; rewrite !trimmed_field_snoc_cr; reflexivity).
  rewrite Hb. destruct (non_blank l); simpl; rewrite ?Hp, IH; reflexivity.
Qed.

(** X1: a carriage return at the end of a line changes nothing: the
    line is blank with it exactly when it is blank without it, and it
    parses to the same record; so the text of the lines ended by CR LF
    gives the records of the text of the same lines ended by LF. *)
Theorem X1_trailing_carriage_return_ignored (line : jsstring) :
  non_blank (line ++ [13%N]) = non_blank line
  /\ parse_line (line ++ [13%N]) = parse_line line
  /\ (forall ls : list jsstring,
        Forall (fun l => free_of 10 l = true) ls ->
        parse_historique (join nl (map (fun l => l ++ [13%N]) ls))
        = parse_historique (join nl ls)).
Proof.
  split; [|split].
  - unfold non_blank. rewrite trim_snoc_white by reflexivity. reflexivity.
  - unfold parse_line. cbv zeta. rewrite !trimmed_field_snoc_cr. reflexivity.
  - intros ls Hfree. rewrite !parse_joined_lines.
    + apply with_carriage_returns.
    + exact Hfree.
    + apply Forall_map. eapply Forall_impl; [exact Hfree|].
      intros l Hl. simpl. rewrite free_of_app, Hl. reflexivity.
Qed.

(** X2: parsing the text a, a newline, then the text b gives the records
    of a followed by the records of b: the parser works line by line,
    and joining two history files keeps every record of both, in
    order. *)
Theorem X2_parse_concatenated_files (a b : jsstring) :
  parse_historique (a ++ nl ++ b) = parse_historique a ++ parse_historique b.
Proof.
  unfold parse_historique, history_lines, nl. simpl app.
  rewrite split_app_sep, List.filter_app, map_app. reflexivity.
Qed.

(** X27: for lines that hold no newline, parsing their text (the lines
    joined by newlines) gives exactly the records of the non-blank
    lines, one each, in order. *)
Theorem X27_one_record_per_non_blank_line (ls : list jsstring) :
  Forall (fun l => free_of 10 l = true) ls ->
  parse_historique (join nl ls) = map parse_line (List.filter non_blank ls)
  /\ length (parse_historique (join nl ls))
     = length (List.filter non_blank ls).
Proof.
  intros Hfree. rewrite parse_joined_lines by exact Hfree.
  split; [reflexivity | apply length_map].
Qed.

(** X27, at the two lines of the example. *)
Lemma X27_one_record_per_non_blank_line_witness :
  Forall (fun l => free_of 10 l = true)
    [lit "123-456;01/01/2024"; lit "999-999;02/02/2024"]
  /\ length (parse_historique
               (join nl [lit "123-456;01/01/2024"; lit "999-999;02/02/2024"]))
     = length (List.filter non_blank
                 [lit "123-456;01/01/2024"; lit "999-999;02/02/2024"]).
Proof.
  assert (H : Forall (fun l => free_of 10 l = true)
                [lit "123-456;01/01/2024"; lit "999-999;02/02/2024"])
    by (repeat constructor).
  split; [exact H|].
  exact (proj2 (X27_one_record_per_non_blank_line _ H)).
Defined.

Lemma parse_line_fields_trimmed (line : jsstring) :
  no_edge_space (h_Matricule (parse_line line))
  /\ no_edge_space (h_DateMaree (parse_line line))
  /\ trim (h_Matricule (parse_line line)) = h_Matricule (parse_line line)
  /\ trim (h_DateMaree (parse_line line)) = h_DateMaree (parse_line line).
Proof.
  unfold parse_line. cbn [h_Matricule h_DateMaree].
  rewrite !trimmed_or_empty_trim.
  assert (Hf : forall o : option jsstring,
             no_edge_space (match o with Some v => trim v | None => [] end)
             /\ trim (match o with Some v => trim v | None => [] end)
                = match o with Some v => trim v | None => [] end).
  { intros [v|].
    - split; [apply trim_no_edge_space | apply trim_idem].
    - split; [|reflexivity]. split; intros c x Hx; [discriminate|].
      destruct x; discriminate. }
  destruct (Hf (split 59 line !! 0%nat)) as [? ?].
  destruct (Hf (split 59 line !! 1%nat)) as [? ?]. auto.
Qed.

(** X3: in every parsed record the registration id and the date string
    carry no white space at either end, and trimming them again changes
    nothing. *)
Theorem X3_parsed_fields_are_trimmed (line : jsstring) :
  no_edge_space (h_Matricule (parse_line line))
  /\ no_edge_space (h_DateMaree (parse_line line))
  /\ trim (h_Matricule (parse_line line)) = h_Matricule (parse_line line)
  /\ trim (h_DateMaree (parse_line line)) = h_DateMaree (parse_line line).
Proof. apply parse_line_fields_trimmed. Qed.

(* ---- owners that never join ----------------------------------------- *)

Lemma find_skip {A} (f : A -> bool) (l1 l2 : list A) (x : A) :
  f x = false \/ existsb f l1 = true ->
  List.find f (l1 ++ x :: l2) = List.find f (l1 ++ l2).
Proof.
  induction l1 as [|y l1 IH]; simpl.
  - intros [-> | Hex]; [reflexivity | discriminate].
  - destruct (f y); [reflexivity|]. simpl. exact IH.
Qed.

Lemma join_rows_skip_owner (o1 o2 : list Proprietaire) (p : Proprietaire)
    (trips : list Historique) (i : nat) :
  Forall (fun h => owner_matches h p = false
                   \/ existsb (owner_matches h) o1 = true) trips ->
  join_rows (o1 ++ p :: o2) i trips = join_rows (o1 ++ o2) i trips.
Proof.
  revert i. induction trips as [|h rest IH]; intros i Hall; [reflexivity|].
  apply Forall_cons in Hall as [Hh Hrest]. simpl.
  rewrite find_skip by exact Hh.
  destruct (List.find (owner_matches h) (o1 ++ o2)); rewrite IH by exact Hrest;
    reflexivity.
Qed.

Lemma merge_skip_owner (o1 o2 : list Proprietaire) (p : Proprietaire)
    (trips : list Historique) :
  Forall (fun h => owner_matches h p = false
                   \/ existsb (owner_matches h) o1 = true) trips ->
  merge (o1 ++ p :: o2) trips = merge (o1 ++ o2) trips.
Proof. intros H. rewrite !merge_join_rows. apply join_rows_skip_owner. exact H. Qed.

(** X4: an owner row whose Matricule has white space at either end never
    joins a trip read from a history file: the parser trims the trip's
    id, the owner's is compared as it is. Taking the row out of the
    owner list leaves the merge of any parsed history unchanged. *)
Theorem X4_untrimmed_owner_never_joins (p : Proprietaire) (v : jsstring)
    (o1 o2 : list Proprietaire) (text : jsstring) :
  p !! key_Matricule = Some v -> trim v <> v ->
  (forall line, owner_matches (parse_line line) p = false)
  /\ merge (o1 ++ p :: o2) (parse_historique text)
     = merge (o1 ++ o2) (parse_historique text).
Proof.
  intros Hp Hv.
  assert (Hno : forall line, owner_matches (parse_line line) p = false).
  { intros line. destruct (owner_matches (parse_line line) p) eqn:Hm; [|reflexivity].
    apply owner_matches_spec in Hm. rewrite Hp in Hm. injection Hm as Hm.
    destruct (parse_line_fields_trimmed line) as [_ [_ [Ht _]]].
    exfalso. apply Hv. rewrite Hm. exact Ht. }
  split; [exact Hno|].
  apply merge_skip_owner. unfold parse_historique.
  apply Forall_forall. intros h Hh.
  apply list_elem_of_In, in_map_iff in Hh as [line [<- _]]. left. apply Hno.
Qed.

(** X5: an owner row without a Matricule column joins no trip: taking it
    out of the owner list leaves the merge unchanged, whatever the
    trips. *)
Theorem X5_owner_without_matricule_ignored (p : Proprietaire)
    (o1 o2 : list Proprietaire) (trips : list Historique) :
  p !! key_Matricule = None ->
  merge (o1 ++ p :: o2) trips = merge (o1 ++ o2) trips.
Proof.
  intros Hp. apply merge_skip_owner, Forall_forall. intros h _. left.
  unfold owner_matches. rewrite Hp. reflexivity.
Qed.

(** X6: the first owner with a given Matricule wins: a later row with
    the same Matricule as an earlier one is never used, and taking it
    out of the owner list leaves the merge unchanged. *)
Theorem X6_later_duplicate_owner_ignored (q p : Proprietaire)
    (o1 o2 : list Proprietaire) (trips : list Historique) :
  q ∈ o1 -> q !! key_Matricule = p !! key_Matricule ->
  merge (o1 ++ p :: o2) trips = merge (o1 ++ o2) trips.
Proof.
  intros Hq Hsame. apply merge_skip_owner, Forall_forall. intros h _.
  destruct (owner_matches h p) eqn:Hp; [right | left; reflexivity].
  apply existsb_exists. exists q. split; [apply list_elem_of_In; exact Hq|].
  apply owner_matches_spec. rewrite Hsame. apply owner_matches_spec. exact Hp.
Qed.

(* ---- the rows of one merge ------------------------------------------ *)

Lemma row_id_inj (i j : nat) :
  lit "row-" ++ decimal i = lit "row-" ++ decimal j -> i = j.
Proof. intros H. apply app_inv_head in H. apply decimal_inj. exact H. Qed.

(** X7: within one merge the ids are pairwise different, so they can
    serve as row keys. *)
Theorem X7_merge_ids_distinct (owners : list Proprietaire)
    (trips : list Historique) :
  NoDup (map m_id (merge owners trips)).
Proof.
  rewrite merge_join_rows, join_rows_ids.
  apply (NoDup_fmap_2_strong (fun k => lit "row-" ++ decimal k)).
  - intros i j _ _. apply row_id_inj.
  - apply NoDup_seq.
Qed.

Lemma filter_length_all {A} (f : A -> bool) (l : list A) :
  length (List.filter f l) = length l <-> Forall (fun x => f x = true) l.
Proof.
  induction l as [|x l IH]; simpl.
  - split; [constructor | reflexivity].
  - pose proof (List.filter_length_le f l) as Hle. destruct (f x) eqn:Hx; simpl.
    + rewrite Forall_cons. split.
      * intros H. split; [exact Hx | apply IH; lia].
      * intros [_ H]. f_equal. apply IH. exact H.
    + split; [lia|]. intros H. apply Forall_cons in H as [H _]. congruence.
Qed.

(** X8: the merge never has more rows than there are trips, and it has
    one row for every trip exactly when every trip has an owner. *)
Theorem X8_merge_size (owners : list Proprietaire) (trips : list Historique) :
  (length (merge owners trips) <= length trips)%nat
  /\ (length (merge owners trips) = length trips
      <-> Forall (fun h => has_owner owners h = true) trips)
  /\ (merge owners trips = []
      <-> Forall (fun h => has_owner owners h = false) trips).
Proof.
  assert (Hlen : length (merge owners trips)
                 = length (List.filter (has_owner owners) trips)).
  { rewrite <- (length_map trip_of), merge_join_rows, join_rows_trips. reflexivity. }
  rewrite Hlen. split; [apply List.filter_length_le|].
  split; [apply filter_length_all|].
  rewrite <- length_zero_iff_nil, Hlen, length_zero_iff_nil. clear Hlen.
  induction trips as [|h rest IH]; simpl.
  - split; [constructor | reflexivity].
  - rewrite Forall_cons. destruct (has_owner owners h).
    + split; [discriminate | intros [? _]; discriminate].
    + rewrite IH. tauto.
Qed.

Lemma field_or_nonempty (p : Proprietaire) (key : jsstring) :
  field_or p key Inconnu <> [].
Proof.
  unfold field_or. destruct (p !! key) as [[|c v]|]; simpl; discriminate.
Qed.

Lemma join_rows_names (owners : list Proprietaire) (trips : list Historique)
    (i : nat) :
  Forall (fun r => m_Barque r <> [] /\ m_Proprietaire r <> [])
    (join_rows owners i trips).
Proof.
  revert i. induction trips as [|h rest IH]; intros i; simpl; [constructor|].
  destruct (List.find (owner_matches h) owners) as [p|]; [|apply IH].
  constructor; [|apply IH]. simpl. split; apply field_or_nonempty.
Qed.

(** X9: no merged row has an empty boat name or an empty owner name: an
    empty or missing column is shown as Inconnu. *)
Theorem X9_merged_names_never_empty (owners : list Proprietaire)
    (trips : list Historique) :
  Forall (fun r => m_Barque r <> [] /\ m_Proprietaire r <> [])
    (merge owners trips).
Proof. rewrite merge_join_rows. apply join_rows_names. Qed.

Lemma join_rows_app (owners : list Proprietaire) (t1 t2 : list Historique)
    (i : nat) :
  join_rows owners i (t1 ++ t2)
  = join_rows owners i t1
    ++ join_rows owners (i + length (join_rows owners i t1)) t2.
Proof.
  revert i. induction t1 as [|h rest IH]; intros i; simpl.
  - rewrite Nat.add_0_r. reflexivity.
  - destruct (List.find (owner_matches h) owners) as [p|]; simpl.
    + rewrite IH. do 3 f_equal. lia.
    + apply IH.
Qed.

Lemma renumber_join_rows (owners : list Proprietaire) (trips : list Historique)
    (i k : nat) :
  renumber_from k (join_rows owners i trips) = join_rows owners k trips.
Proof.
  revert i k. induction trips as [|h rest IH]; intros i k; simpl; [reflexivity|].
  destruct (List.find (owner_matches h) owners) as [p|]; simpl.
  - rewrite IH. reflexivity.
  - apply IH.
Qed.

Lemma renumber_from_app (k : nat) (a b : list MergedData) :
  renumber_from k (a ++ b)
  = renumber_from k a ++ renumber_from (k + length a) b.
Proof.
  revert k. induction a as [|r a IH]; intros k; simpl.
  - rewrite Nat.add_0_r. reflexivity.
  - rewrite IH. do 3 f_equal. lia.
Qed.

Lemma renumber_from_length (k : nat) (rows : list MergedData) :
  length (renumber_from k rows) = length rows.
Proof.
  revert k. induction rows as [|r rows IH]; intros k; simpl; [reflexivity|].
  rewrite IH. reflexivity.
Qed.

(** X10: merging a history made of two parts gives the rows of the first
    part followed by the rows of the second, renumbered in one run from
    row-0; and the rows of a merge are already numbered that way. *)
Theorem X10_merge_of_appended_trips (owners : list Proprietaire)
    (t1 t2 : list Historique) :
  merge owners (t1 ++ t2)
  = renumber_from 0 (merge owners t1 ++ merge owners t2)
  /\ renumber_from 0 (merge owners t1) = merge owners t1
  /\ map trip_of (merge owners (t1 ++ t2))
     = map trip_of (merge owners t1) ++ map trip_of (merge owners t2).
Proof.
  rewrite !merge_join_rows. split; [|split].
  - rewrite join_rows_app, renumber_from_app, !renumber_join_rows. reflexivity.
  - apply renumber_join_rows.
  - rewrite !join_rows_trips. apply List.filter_app.
Qed.

(* ---- uploads and the effect ----------------------------------------- *)

Lemma merge_effect_runs (st : Dashboard) :
  proprietairesData st <> [] -> historiqueData st <> [] ->
  merge_effect st
  = {| proprietairesData := proprietairesData st;
       historiqueData := historiqueData st;
       mergedData := merge (proprietairesData st) (historiqueData st);
       currentPage := 1 |}.
Proof.
  unfold merge_effect.
  destruct (proprietairesData st), (historiqueData st); simpl; congruence.
Qed.

(** X11: an upload that brings no rows leaves the table as it was: after
    an owner file with no rows, or a history file with no non-blank
    line, the merged rows and the current page are those from before
    the upload, although the uploaded collection is now empty. *)
Theorem X11_empty_upload_keeps_merged_rows (st : Dashboard) :
  (mergedData (handleProprietairesUpload [] st) = mergedData st
   /\ currentPage (handleProprietairesUpload [] st) = currentPage st
   /\ proprietairesData (handleProprietairesUpload [] st) = [])
  /\ (forall text,
        history_lines text = [] ->
        mergedData (handleHistoriqueUpload text st) = mergedData st
        /\ currentPage (handleHistoriqueUpload text st) = currentPage st
        /\ historiqueData (handleHistoriqueUpload text st) = []).
Proof.
  split; [repeat split|].
  intros text Hblank. unfold handleHistoriqueUpload, merge_effect, parse_historique.
  rewrite Hblank. simpl. rewrite andb_false_r. simpl. repeat split.
Qed.

(** X12: once an owner file with rows and a history file with a
    non-blank line have both been uploaded, in either order and from
    any earlier state, the table is the merge of exactly these two
    uploads and the page is back to 1. *)
Theorem X12_upload_order_irrelevant (st : Dashboard) (data : list Proprietaire)
    (text : jsstring) :
  data <> [] -> history_lines text <> [] ->
  let a := handleHistoriqueUpload text (handleProprietairesUpload data st) in
  let b := handleProprietairesUpload data (handleHistoriqueUpload text st) in
  mergedData a = merge data (parse_historique text)
  /\ mergedData b = merge data (parse_historique text)
  /\ currentPage a = 1 /\ currentPage b = 1.
Proof.
  intros Hdata Hlines.
  assert (Hparse : parse_historique text <> []).
  { unfold parse_historique. destruct (history_lines text); [congruence|discriminate]. }
  assert (Hsame : forall s1 s2 : Dashboard,
             proprietairesData s1 = data ->
             historiqueData s2 = parse_historique text ->
             handleHistoriqueUpload text s1
             = {| proprietairesData := data;
                  historiqueData := parse_historique text;
                  mergedData := merge data (parse_historique text);
                  currentPage := 1 |}
             /\ handleProprietairesUpload data s2
                = {| proprietairesData := data;
                     historiqueData := parse_historique text;
                     mergedData := merge data (parse_historique text);
                     currentPage := 1 |}).
  { intros s1 s2 H1 H2. unfold handleHistoriqueUpload, handleProprietairesUpload.
    rewrite !merge_effect_runs; simpl; rewrite ?H1, ?H2; auto. }
  assert (H1 : proprietairesData (handleProprietairesUpload data st) = data).
  { unfold handleProprietairesUpload, merge_effect. simpl.
    destruct (_ && _); reflexivity. }
  assert (H2 : historiqueData (handleHistoriqueUpload text st) = parse_historique text).
  { unfold handleHistoriqueUpload, merge_effect. simpl.
    destruct (_ && _); reflexivity. }
  destruct (Hsame _ _ H1 H2) as [Ha Hb]. cbv zeta. rewrite Ha, Hb. simpl. auto.
Qed.

(** X12, at the example: the owner row and the two history lines, from
    the initial state. *)
Lemma X12_upload_order_irrelevant_witness :
  [example_owner] <> [] /\ history_lines example_history <> []
  /\ mergedData (handleHistoriqueUpload example_history
                   (handleProprietairesUpload [example_owner] initial))
     = merge [example_owner] (parse_historique example_history).
Proof.
  assert (H1 : [example_owner] <> []) by discriminate.
  assert (H2 : history_lines example_history <> [])
    by (vm_compute; discriminate).
  split; [exact H1|]. split; [exact H2|].
  exact (proj1 (X12_upload_order_irrelevant initial [example_owner]
                  example_history H1 H2)).
Defined.

(* ---- the filters as one pass ---------------------------------------- *)

Lemma staged_filters {A} (b1 b2 b3 : bool) (f1 f2 f3 : A -> bool) (l : list A) :
  (let d1 := if b1 then List.filter f1 l else l in
   let d2 := if b2 then List.filter f2 d1 else d1 in
   if b3 then List.filter f3 d2 else d2)
  = List.filter (fun x => (if b1 then f1 x else true)
                          && (if b2 then f2 x else true)
                          && (if b3 then f3 x else true)) l.
Proof.
  cbv zeta. induction l as [|x l IH]; [destruct b1, b2, b3; reflexivity|].
  simpl. rewrite <- IH.
  destruct b1, b2, b3; simpl;
    destruct (f1 x); simpl; try reflexivity;
    destruct (f2 x); simpl; try reflexivity;
    destruct (f3 x); simpl; reflexivity.
Qed.

Lemma filteredData_one_pass `{Host} (R : list MergedData)
    (sel txt sd ed : jsstring) :
  filteredData R sel txt sd ed = List.filter (keeps sel txt sd ed) R.
Proof.
  unfold filteredData, keeps.
  exact (staged_filters _ _ _ _ _ _ R).
Qed.

Lemma filter_idem {A} (f : A -> bool) (l : list A) :
  List.filter f (List.filter f l) = List.filter f l.
Proof.
  induction l as [|x l IH]; simpl; [reflexivity|].
  destruct (f x) eqn:Hx; simpl; rewrite ?Hx, IH; reflexivity.
Qed.

(** X13: the three filters act as one test per record: filteredData
    keeps exactly the records that pass every filter that is set, each
    record being judged on its own, so the result on a concatenation is
    the concatenation of the results. *)
Theorem X13_filters_are_a_conjunction `{Host} (R R' : list MergedData)
    (sel txt sd ed : jsstring) :
  filteredData R sel txt sd ed = List.filter (keeps sel txt sd ed) R
  /\ (forall r, r ∈ filteredData R sel txt sd ed
                <-> r ∈ R /\ keeps sel txt sd ed r = true)
  /\ filteredData (R ++ R') sel txt sd ed
     = filteredData R sel txt sd ed ++ filteredData R' sel txt sd ed.
Proof.
  rewrite !filteredData_one_pass. split; [reflexivity|]. split.
  - intros r. apply elem_of_filter_bool.
  - apply List.filter_app.
Qed.

(** X14: filtering is idempotent: applying the same filters to the
    filtered list gives the filtered list again. *)
Theorem X14_filter_idempotent `{Host} (R : list MergedData)
    (sel txt sd ed : jsstring) :
  filteredData (filteredData R sel txt sd ed) sel txt sd ed
  = filteredData R sel txt sd ed.
Proof. rewrite !filteredData_one_pass. apply filter_idem. Qed.

Lemma filter_none {A} (f : A -> bool) (l : list A) :
  (forall x, f x = false) -> List.filter f l = [].
Proof.
  intros Hf. induction l as [|x l IH]; simpl; [reflexivity|].
  rewrite Hf. exact IH.
Qed.

(** X15: a start date or an end date that is set but is not a date (its
    Date is invalid) empties the result, whatever the records and the
    other filters: every comparison with the invalid date is false. *)
Theorem X15_invalid_date_excludes_everything `{Host} (R : list MergedData)
    (sel txt sd ed : jsstring) :
  (sd <> [] /\ new_Date_string sd = None)
  \/ (ed <> [] /\ new_Date_string ed = None) ->
  filteredData R sel txt sd ed = [].
Proof.
  intros Hbad. rewrite filteredData_one_pass. apply filter_none. intros r.
  unfold keeps. apply andb_false_iff. right.
  destruct Hbad as [[Hsd Hnone] | [Hed Hnone]].
  - destruct sd as [|c sd]; [congruence|]. cbn [truthy orb option_map].
    rewrite Hnone. unfold date_pred. cbn [setHours].
    destruct (option_map _ _) as [e|];
      destruct (new_Date_ymd _ _ _); reflexivity.
  - destruct ed as [|c ed]; [congruence|]. cbn [truthy]. rewrite orb_true_r.
    cbn [option_map]. rewrite Hnone. unfold date_pred. cbn [setHours].
    destruct (option_map _ _) as [s|]; unfold date_geb, date_leb;
      destruct (new_Date_ymd _ _ _) as [x|]; try reflexivity;
      try (destruct s; simpl; rewrite ?andb_false_r; reflexivity).
Qed.

(** X15, at the sample host, with a start date that is no date. *)
Lemma X15_invalid_date_excludes_everything_witness :
  ((lit "hier" <> [] /\ @new_Date_string sample_host (lit "hier") = None)
   \/ (@nil N <> [] /\ @new_Date_string sample_host [] = None))
  /\ @filteredData sample_host [example_record] (lit "all") [] (lit "hier") [] = [].
Proof.
  assert (Hbad : (lit "hier" <> [] /\ @new_Date_string sample_host (lit "hier") = None)
                 \/ (@nil N <> [] /\ @new_Date_string sample_host [] = None)).
  { left. split; [discriminate | reflexivity]. }
  split; [exact Hbad|].
  exact (@X15_invalid_date_excludes_everything sample_host [example_record]
           (lit "all") [] (lit "hier") [] Hbad).
Defined.

(** X16: the owner filter is an exact, case-sensitive match: with an
    owner selected (not the entry all, not the empty string) and no
    other filter, the result is exactly the records whose owner name is
    the selected string; with all, or with nothing selected, every
    record is kept. *)
Theorem X16_owner_filter_exact `{Host} (R : list MergedData) (sel : jsstring) :
  sel <> [] -> sel <> lit "all" ->
  (forall r, r ∈ filteredData R sel [] [] [] <-> r ∈ R /\ m_Proprietaire r = sel)
  /\ filteredData R (lit "all") [] [] [] = R
  /\ filteredData R [] [] [] [] = R.
Proof.
  intros Hne Hall. split; [|split; reflexivity].
  intros r. unfold filteredData. cbv zeta. cbn [truthy orb].
  destruct sel as [|c sel]; [congruence|]. cbn [truthy andb].
  destruct (str_eqb (c :: sel) (lit "all")) eqn:Heq.
  - apply str_eqb_eq in Heq. congruence.
  - cbn [negb]. rewrite elem_of_filter_bool. unfold owner_pred.
    rewrite str_eqb_eq. reflexivity.
Qed.

(** X16, at the example record and its owner. *)
Lemma X16_owner_filter_exact_witness :
  lit "Jean Dupont" <> [] /\ lit "Jean Dupont" <> lit "all"
  /\ (example_record ∈ @filteredData sample_host [example_record]
                          (lit "Jean Dupont") [] [] []
      <-> example_record ∈ [example_record]
          /\ m_Proprietaire example_record = lit "Jean Dupont").
Proof.
  assert (H1 : lit "Jean Dupont" <> []) by discriminate.
  assert (H2 : lit "Jean Dupont" <> lit "all") by discriminate.
  split; [exact H1|]. split; [exact H2|].
  exact (proj1 (@X16_owner_filter_exact sample_host [example_record]
                  (lit "Jean Dupont") H1 H2) example_record).
Defined.

(* ---- the owner list of the select ----------------------------------- *)

Lemma str_ltb_irrefl (s : jsstring) : str_ltb s s = false.
Proof.
  induction s as [|a s IH]; simpl; [reflexivity|].
  rewrite N.ltb_irrefl, N.eqb_refl, IH. reflexivity.
Qed.

Lemma str_ltb_trans (a b c : jsstring) :
  str_ltb a b = true -> str_ltb b c = true -> str_ltb a c = true.
Proof.
  revert b c. induction a as [|x a IH]; intros [|y b] [|z c]; simpl;
    try discriminate; try reflexivity.
  rewrite !orb_true_iff, !andb_true_iff, !N.ltb_lt, !N.eqb_eq.
  intros [Hxy | [-> Hab]] [Hyz | [-> Hbc]].
  - left. lia.
  - left. exact Hxy.
  - left. exact Hyz.
  - right. split; [reflexivity|]. eapply IH; eassumption.
Qed.

Lemma str_ltb_total (a b : jsstring) :
  str_ltb a b = false -> str_ltb b a = false -> a = b.
Proof.
  revert b. induction a as [|x a IH]; intros [|y b]; simpl;
    try discriminate; try reflexivity.
  rewrite !orb_false_iff, !andb_false_iff, !N.ltb_ge, !N.eqb_neq.
  intros [Hxy Hab] [Hyx Hba].
  assert (x = y) by lia. subst y. f_equal.
  apply IH; [destruct Hab | destruct Hba]; congruence.
Qed.

Lemma elem_of_sort_insert (x z : jsstring) (l : list jsstring) :
  z ∈ sort_insert x l <-> z = x \/ z ∈ l.
Proof.
  induction l as [|y l IH]; simpl.
  - rewrite list_elem_of_singleton, elem_of_nil. tauto.
  - destruct (str_ltb y x); rewrite !elem_of_cons, ?IH; tauto.
Qed.

Lemma sort_insert_sorted (x : jsstring) (l : list jsstring) :
  StronglySorted (fun a b => str_ltb a b = true) l -> x ∉ l ->
  StronglySorted (fun a b => str_ltb a b = true) (sort_insert x l).
Proof.
  induction l as [|y l IH]; intros Hs Hx; simpl.
  - constructor; constructor.
  - apply StronglySorted_inv in Hs as [Hs Hy].
    apply not_elem_of_cons in Hx as [Hxy Hx].
    destruct (str_ltb y x) eqn:Hyx.
    + constructor; [apply IH; assumption|].
      apply Forall_forall. intros z Hz. apply elem_of_sort_insert in Hz as [->|Hz].
      * exact Hyx.
      * rewrite Forall_forall in Hy. apply Hy. exact Hz.
    + assert (Hlt : str_ltb x y = true).
      { destruct (str_ltb x y) eqn:H; [reflexivity|].
        exfalso. apply Hxy. apply str_ltb_total; assumption. }
      constructor; [constructor; assumption|].
      constructor; [exact Hlt|].
      eapply Forall_impl; [exact Hy|]. intros z Hz. simpl in Hz.
      eapply str_ltb_trans; eassumption.
Qed.

Lemma elem_of_Array_sort (z : jsstring) (l : list jsstring) :
  z ∈ Array_sort l <-> z ∈ l.
Proof.
  induction l as [|x l IH]; simpl; [reflexivity|].
  rewrite elem_of_sort_insert, elem_of_cons, IH. reflexivity.
Qed.

Lemma Array_sort_sorted (l : list jsstring) :
  NoDup l -> StronglySorted (fun a b => str_ltb a b = true) (Array_sort l).
Proof.
  induction l as [|x l IH]; intros Hnd; simpl; [constructor|].
  apply NoDup_cons in Hnd as [Hx Hnd].
  apply sort_insert_sorted; [apply IH; exact Hnd|].
  rewrite elem_of_Array_sort. exact Hx.
Qed.

Lemma strictly_sorted_NoDup (l : list jsstring) :
  StronglySorted (fun a b => str_ltb a b = true) l -> NoDup l.
Proof.
  induction l as [|x l IH]; intros Hs; [constructor|].
  apply StronglySorted_inv in Hs as [Hs Hx]. constructor; [|apply IH; exact Hs].
  intros Hin. rewrite Forall_forall in Hx. specialize (Hx x Hin).
  rewrite str_ltb_irrefl in Hx. discriminate.
Qed.

Lemma Set_add_spec (acc : list jsstring) (x : jsstring) :
  NoDup acc ->
  NoDup (Set_add acc x) /\ forall z, z ∈ Set_add acc x <-> z ∈ acc \/ z = x.
Proof.
  intros Hnd. unfold Set_add. destruct (existsb (str_eqb x) acc) eqn:Hex.
  - split; [exact Hnd|]. intros z. split; [auto|]. intros [Hz | ->]; [exact Hz|].
    apply existsb_exists in Hex as [y [Hy Heq]]. apply str_eqb_eq in Heq. subst y.
    apply list_elem_of_In. exact Hy.
  - assert (Hx : x ∉ acc).
    { intros Hin. apply list_elem_of_In in Hin.
      assert (existsb (str_eqb x) acc = true)
        by (apply existsb_exists; exists x; split; [exact Hin | apply str_eqb_refl]).
      congruence. }
    split.
    + apply NoDup_app. split; [exact Hnd|]. split; [|apply NoDup_singleton].
      intros z Hz Hz'. apply list_elem_of_singleton in Hz'. subst z. auto.
    + intros z. rewrite elem_of_app, list_elem_of_singleton. reflexivity.
Qed.

Lemma Set_from_spec (values acc : list jsstring) :
  NoDup acc ->
  NoDup (fold_left Set_add values acc)
  /\ forall z, z ∈ fold_left Set_add values acc <-> z ∈ acc \/ z ∈ values.
Proof.
  revert acc. induction values as [|x values IH]; intros acc Hnd; simpl.
  - split; [exact Hnd|]. intros z. rewrite elem_of_nil. tauto.
  - destruct (Set_add_spec acc x Hnd) as [Hnd' Hmem].
    destruct (IH _ Hnd') as [Hnd'' Hmem'']. split; [exact Hnd''|].
    intros z. rewrite Hmem'', Hmem, elem_of_cons. tauto.
Qed.

Lemma elem_of_uniqueProprietaires (R : list MergedData) (z : jsstring) :
  z ∈ uniqueProprietaires R <-> exists r, r ∈ R /\ m_Proprietaire r = z.
Proof.
  unfold uniqueProprietaires, Set_from. rewrite elem_of_Array_sort.
  destruct (Set_from_spec (map m_Proprietaire R) [] (NoDup_nil_2)) as [_ Hmem].
  rewrite Hmem, elem_of_nil, list_elem_of_In, in_map_iff.
  split.
  - intros [[] | [r [Hr Hin]]]. exists r. rewrite list_elem_of_In. auto.
  - intros [r [Hin Hr]]. right. exists r. rewrite <- list_elem_of_In. auto.
Qed.

(** X17: the owner list offered by the select holds exactly the owner
    names that occur in the merged rows, each once, in strictly
    increasing order of their code units. *)
Theorem X17_owner_list_sorted_and_exact (R : list MergedData) :
  StronglySorted (fun a b => str_ltb a b = true) (uniqueProprietaires R)
  /\ NoDup (uniqueProprietaires R)
  /\ (forall z, z ∈ uniqueProprietaires R
                <-> exists r, r ∈ R /\ m_Proprietaire r = z).
Proof.
  assert (Hs : StronglySorted (fun a b => str_ltb a b = true)
                 (uniqueProprietaires R)).
  { unfold uniqueProprietaires, Set_from. apply Array_sort_sorted.
    apply (Set_from_spec _ [] NoDup_nil_2). }
  split; [exact Hs|]. split; [apply strictly_sorted_NoDup; exact Hs|].
  apply elem_of_uniqueProprietaires.
Qed.

(** X18: every entry of the owner list finds something: selecting it,
    with no other filter, never gives an empty result. *)
Theorem X18_listed_owner_has_rows `{Host} (R : list MergedData) (p : jsstring) :
  p ∈ uniqueProprietaires R -> filteredData R p [] [] [] <> [].
Proof.
  intros Hp. apply elem_of_uniqueProprietaires in Hp as [r [Hr Hown]].
  assert (Hin : r ∈ filteredData R p [] [] []).
  { unfold filteredData. cbv zeta. cbn [truthy orb].
    destruct (truthy p && negb (str_eqb p (lit "all"))); [|exact Hr].
    apply elem_of_filter_bool. split; [exact Hr|].
    unfold owner_pred. apply str_eqb_eq. exact Hown. }
  intros Hnil. rewrite Hnil in Hin. apply elem_of_nil in Hin. exact Hin.
Qed.

(** X18, at the example: its one owner. *)
Lemma X18_listed_owner_has_rows_witness :
  lit "Jean Dupont" ∈ uniqueProprietaires [example_record]
  /\ @filteredData sample_host [example_record] (lit "Jean Dupont") [] [] [] <> [].
Proof.
  assert (Hin : lit "Jean Dupont" ∈ uniqueProprietaires [example_record])
    by (vm_compute; constructor).
  split; [exact Hin|].
  exact (@X18_listed_owner_has_rows sample_host [example_record]
           (lit "Jean Dupont") Hin).
Defined.

(* ---- pages ---------------------------------------------------------- *)

Lemma slice_shape {A} (l : list A) (start end_ : Z) :
  exists k n : nat,
    slice l start end_ = take n (drop k l)
    /\ Z.of_nat k = slice_index (Z.of_nat (length l)) start
    /\ Z.of_nat n = Z.max (slice_index (Z.of_nat (length l)) end_
                           - slice_index (Z.of_nat (length l)) start) 0.
Proof.
  unfold slice. eexists _, _. split; [reflexivity|].
  unfold slice_index. split;
    repeat match goal with
           | |- context [?a <? ?b] => destruct (Z.ltb_spec a b)
           end; lia.
Qed.

(** X19: a page shows at most pageSize records, and they are records of
    the filtered list in its order, for every page number, also one
    outside 1 .. totalPages. *)
Theorem X19_page_is_short_sublist (fd : list MergedData) (p : Z) :
  (length (currentData fd p) <= 10)%nat
  /\ currentData fd p `sublist_of` fd.
Proof.
  unfold currentData, itemsPerPage.
  destruct (slice_shape fd ((p - 1) * 10) (p * 10)) as [k [n [-> [Hk Hn]]]].
  split.
  - rewrite length_take. unfold slice_index in *.
    repeat match goal with
           | H : context [?a <? ?b] |- _ => destruct (Z.ltb_spec a b)
           end; lia.
  - etransitivity; [apply sublist_take | apply sublist_drop].
Qed.

Lemma empty_page_iff (fd : list MergedData) (p : Z) :
  0 <= p ->
  (currentData fd p = [] <-> p = 0 \/ totalPages fd < p).
Proof.
  intros Hp. destruct (totalPages_nat fd) as [[Hlo Hhi] Hpos].
  destruct (Z.eq_dec p 0) as [->|Hp0].
  - split; [auto|]. intros _. unfold currentData, itemsPerPage.
    destruct (slice_shape fd ((0 - 1) * 10) (0 * 10)) as [k [n [-> [Hk Hn]]]].
    unfold slice_index in *. simpl in Hk, Hn.
    replace n with 0%nat by lia. apply take_0.
  - replace p with (Z.of_nat (S (Z.to_nat p - 1))) by lia.
    rewrite currentData_page.
    set (q := (Z.to_nat p - 1)%nat). rewrite <- length_zero_iff_nil.
    rewrite length_take, length_drop. split; [intros H; right | intros [H|H]]; lia.
Qed.

(** X20: for a page number that is not negative, the page is empty
    exactly when the number is 0 or above totalPages; every page from
    1 to totalPages shows at least one record. *)
Theorem X20_empty_page_iff_out_of_range (fd : list MergedData) (p : Z) :
  0 <= p ->
  (currentData fd p = [] <-> p = 0 \/ totalPages fd < p).
Proof. apply empty_page_iff. Qed.

(** X20, at a one-record list: page 2 is out of range and empty. *)
Lemma X20_empty_page_iff_out_of_range_witness :
  0 <= 2
  /\ (currentData [example_record] 2 = []
      <-> 2 = 0 \/ totalPages [example_record] < 2).
Proof.
  assert (H : 0 <= 2) by lia.
  split; [exact H|].
  exact (X20_empty_page_iff_out_of_range [example_record] 2 H).
Defined.

(** X21: with the footer shown (a non-empty filtered list) and a current
    page of at least 1, the two buttons keep the page at 1 or more and
    never move past totalPages; each is disabled exactly when pressing
    it would change nothing (for the next button, while the page is
    within range); and from a page left above totalPages by a narrower
    filter, the next button comes back to totalPages. *)
Theorem X21_page_buttons (fd : list MergedData) (p : Z) :
  footer_shown fd = true -> 1 <= p ->
  1 <= previous_page p <= p
  /\ 1 <= next_page (totalPages fd) p <= totalPages fd
  /\ (previous_disabled p = true <-> previous_page p = p)
  /\ (p <= totalPages fd ->
      (next_disabled (totalPages fd) p = true <-> next_page (totalPages fd) p = p))
  /\ (totalPages fd < p -> next_page (totalPages fd) p = totalPages fd)
  /\ (p <= totalPages fd -> currentData fd (next_page (totalPages fd) p) <> []
                            /\ currentData fd (previous_page p) <> []).
Proof.
  intros Hshown Hp. unfold footer_shown in Hshown. apply Nat.ltb_lt in Hshown.
  pose proof (totalPages_bounds fd) as Hb. unfold itemsPerPage in Hb.
  assert (Htp : 1 <= totalPages fd) by lia.
  unfold previous_page, next_page, previous_disabled, next_disabled.
  rewrite !Z.eqb_eq.
  split; [lia|]. split; [lia|]. split; [lia|]. split; [lia|]. split; [lia|].
  intros Hin.
  assert (Hnonempty : forall q, 1 <= q <= totalPages fd -> currentData fd q <> []).
  { intros q Hq Hnil.
    apply (empty_page_iff fd q) in Hnil; lia. }
  split; apply Hnonempty; lia.
Qed.

(** X21, at a one-record list on page 1. *)
Lemma X21_page_buttons_witness :
  footer_shown [example_record] = true /\ 1 <= 1
  /\ 1 <= next_page (totalPages [example_record]) 1 <= totalPages [example_record].
Proof.
  assert (H1 : footer_shown [example_record] = true) by reflexivity.
  assert (H2 : 1 <= 1) by lia.
  split; [exact H1|]. split; [exact H2|].
  exact (proj1 (proj2 (X21_page_buttons [example_record] 1 H1 H2))).
Defined.

(* ---- the comparison date -------------------------------------------- *)

Lemma MakeDay_month_carry (year month date : Z) :
  MakeDay year (month + 12) date = MakeDay (year + 1) month date.
Proof.
  unfold MakeDay.
  replace (month + 12) with (month + 1 * 12) by lia.
  rewrite Z.div_add, Z.mod_add by lia.
  replace (year + (month / 12 + 1)) with (year + 1 + month / 12) by lia.
  reflexivity.
Qed.

(** X22: a Mois above 12 is not rejected by the date filter but carried
    into the next year: a record with Mois m + 12 and Annee y is compared
    exactly like one with Mois m and Annee y + 1, for m within a million
    and y within a hundred thousand of 0, where the source's arithmetic
    on Mois and Annee is exact (y and y + 1 both outside, or both
    inside, the two-digit years 0 .. 99). *)
Theorem X22_month_overflow_carries `{Host} (start end_ : option (option Z))
    (r : MergedData) (m y : Z) :
  - 1000000 <= m <= 1000000 -> - 100000 <= y <= 100000 ->
  y <> -1 -> y <> 99 ->
  date_pred start end_
    {| m_Barque := m_Barque r; m_Matricule := m_Matricule r;
       m_DateMaree := m_DateMaree r; m_Proprietaire := m_Proprietaire r;
       m_Mois := m + 12; m_Annee := y; m_id := m_id r |}
  = date_pred start end_
      {| m_Barque := m_Barque r; m_Matricule := m_Matricule r;
         m_DateMaree := m_DateMaree r; m_Proprietaire := m_Proprietaire r;
         m_Mois := m; m_Annee := y + 1; m_id := m_id r |}.
Proof.
  intros _ _ Hy1 Hy2. unfold date_pred. cbn [m_Mois m_Annee].
  assert (Hdate : new_Date_ymd y (m + 12 - 1) 1 = new_Date_ymd (y + 1) (m - 1) 1).
  { unfold new_Date_ymd.
    replace (m + 12 - 1) with (m - 1 + 12) by lia.
    destruct (Z.leb_spec 0 y), (Z.leb_spec y 99), (Z.leb_spec 0 (y + 1)),
      (Z.leb_spec (y + 1) 99); simpl; try lia;
      rewrite MakeDay_month_carry; do 4 f_equal; lia. }
  rewrite Hdate. reflexivity.
Qed.

(** X22, at the sample host: Mois 13 of year 2023 against Mois 1 of
    2024. *)
Lemma X22_month_overflow_carries_witness :
  - 1000000 <= 1 <= 1000000 /\ - 100000 <= 2023 <= 100000
  /\ 2023 <> -1 /\ 2023 <> 99
  /\ @date_pred sample_host (Some (Some 1704067200000)) None
       {| m_Barque := m_Barque example_record;
          m_Matricule := m_Matricule example_record;
          m_DateMaree := m_DateMaree example_record;
          m_Proprietaire := m_Proprietaire example_record;
          m_Mois := 1 + 12; m_Annee := 2023; m_id := m_id example_record |}
     = @date_pred sample_host (Some (Some 1704067200000)) None
         {| m_Barque := m_Barque example_record;
            m_Matricule := m_Matricule example_record;
            m_DateMaree := m_DateMaree example_record;
            m_Proprietaire := m_Proprietaire example_record;
            m_Mois := 1; m_Annee := 2023 + 1; m_id := m_id example_record |}.
Proof.
  assert (Hm : - 1000000 <= 1 <= 1000000) by lia.
  assert (Hy : - 100000 <= 2023 <= 100000) by lia.
  assert (H1 : 2023 <> -1) by lia.
  assert (H2 : 2023 <> 99) by lia.
  split; [exact Hm|]. split; [exact Hy|]. split; [exact H1|]. split; [exact H2|].
  exact (@X22_month_overflow_carries sample_host (Some (Some 1704067200000))
           None example_record 1 2023 Hm Hy H1 H2).
Defined.

Lemma MakeDay_before_1915 (y m : Z) :
  0 <= y <= 12 -> 1 <= m <= 31 -> MakeDay (1900 + y) (m - 1) 1 <= -2.
Proof.
  intros Hy Hm.
  assert (Hall : forallb
                   (fun y' => forallb
                                (fun m' => MakeDay (1900 + y') (m' - 1) 1 <=? -2)
                                (seqZ 1 31))
                   (seqZ 0 13) = true) by (vm_compute; reflexivity).
  rewrite forallb_forall in Hall.
  assert (Hyin : In y (seqZ 0 13)) by (apply list_elem_of_In, elem_of_seqZ; lia).
  specialize (Hall y Hyin). rewrite forallb_forall in Hall.
  assert (Hmin : In m (seqZ 1 31)) by (apply list_elem_of_In, elem_of_seqZ; lia).
  specialize (Hall m Hmin). apply Z.leb_le in Hall. exact Hall.
Qed.

Lemma date_pred_early_record `{Host} (Hzone : zone_within_a_day _)
    (t : Z) (e : option (option Z)) (r : MergedData) :
  2 * msPerDay <= t -> 0 <= m_Annee r <= 12 -> 1 <= m_Mois r <= 31 ->
  date_pred (Some (setHours (Some t) 0 0 0 0)) e r = false.
Proof.
  intros Ht Hy Hm. unfold date_pred.
  assert (Hge : date_geb (new_Date_ymd (m_Annee r) (m_Mois r - 1) 1)
                  (setHours (Some t) 0 0 0 0) = false).
  { destruct (new_Date_ymd _ _ _) as [x|] eqn:Hx; [|reflexivity].
    destruct (setHours (Some t) 0 0 0 0) as [z|] eqn:Hz; [|reflexivity].
    apply setHours_after_epoch in Hz; [|exact Hzone|exact Ht|vm_compute; discriminate].
    unfold new_Date_ymd, TimeClip, UTC, MakeDate in Hx.
    replace ((0 <=? m_Annee r) && (m_Annee r <=? 99)) with true in Hx
      by (symmetry; apply andb_true_iff; rewrite !Z.leb_le; lia).
    pose proof (MakeDay_before_1915 _ _ Hy Hm) as Hday.
    change (MakeTime 0 0 0 0) with 0 in Hx.
    destruct (Z.abs _ >? _); [discriminate|]. injection Hx as <-.
    pose proof (Hzone (MakeDay (1900 + m_Annee r) (m_Mois r - 1) 1 * msPerDay + 0)
                  false) as Hz2.
    simpl. apply Z.leb_gt. unfold msPerDay in *. lia. }
  cbv zeta. destruct e; rewrite Hge; reflexivity.
Qed.

(** X23: records whose Annee is between 0 and 12 and whose Mois is
    between 1 and 31, as the parser produces from day/month/year lines,
    are compared as dates of the years 1900 to 1914: in a zone within a
    day of UTC, any start date from 3 January 1970 on excludes all of
    them, whatever the other filters. *)
Theorem X23_small_years_fall_before_any_start `{Host} (Hzone : zone_within_a_day _)
    (R : list MergedData) (sel txt sd ed : jsstring) (t : Z) :
  Forall (fun r => 0 <= m_Annee r <= 12 /\ 1 <= m_Mois r <= 31) R ->
  sd <> [] -> new_Date_string sd = Some t -> 2 * msPerDay <= t ->
  filteredData R sel txt sd ed = [].
Proof.
  intros HR Hsd Hparse Ht. rewrite filteredData_one_pass.
  induction R as [|r R IH]; [reflexivity|].
  apply Forall_cons in HR as [[Hy Hm] HR]. simpl. rewrite (IH HR).
  replace (keeps sel txt sd ed r) with false; [reflexivity|].
  symmetry. unfold keeps. apply andb_false_iff. right.
  destruct sd as [|c sd]; [congruence|]. cbn [truthy orb option_map].
  rewrite Hparse. apply date_pred_early_record; assumption.
Qed.

(** X23, at the sample host: the record of the example and the start
    date 2024-01-01. *)
Lemma X23_small_years_fall_before_any_start_witness :
  zone_within_a_day sample_host
  /\ Forall (fun r => 0 <= m_Annee r <= 12 /\ 1 <= m_Mois r <= 31) [example_record]
  /\ lit "2024-01-01" <> []
  /\ @new_Date_string sample_host (lit "2024-01-01") = Some 1704067200000
  /\ 2 * msPerDay <= 1704067200000
  /\ @filteredData sample_host [example_record] (lit "all") []
       (lit "2024-01-01") [] = [].
Proof.
  assert (H1 : Forall (fun r => 0 <= m_Annee r <= 12 /\ 1 <= m_Mois r <= 31)
                 [example_record]) by (repeat constructor; simpl; lia).
  assert (H2 : lit "2024-01-01" <> []) by discriminate.
  assert (H3 : @new_Date_string sample_host (lit "2024-01-01") = Some 1704067200000)
    by reflexivity.
  assert (H4 : 2 * msPerDay <= 1704067200000) by (unfold msPerDay; lia).
  split; [exact sample_host_zone|]. split; [exact H1|]. split; [exact H2|].
  split; [exact H3|]. split; [exact H4|].
  exact (@X23_small_years_fall_before_any_start sample_host sample_host_zone
           [example_record] (lit "all") [] (lit "2024-01-01") [] 1704067200000
           H1 H2 H3 H4).
Defined.

(* ---- a line of the documented form ---------------------------------- *)

Lemma digits_free_of (c : N) (d : jsstring) :
  is_digit c = false -> forallb is_digit d = true -> free_of c d = true.
Proof.
  intros Hc. unfold free_of. induction d as [|x d IH]; simpl; [reflexivity|].
  rewrite andb_true_iff. intros [Hx Hd]. rewrite (IH Hd), andb_true_r.
  apply negb_true_iff. unfold code_eqb. apply N.eqb_neq. intros ->. congruence.
Qed.

Lemma trimStart_app_nonwhite (s t : jsstring) (c : N) :
  is_white_space c = false ->
  trimStart (s ++ c :: t) = trimStart s ++ c :: t.
Proof.
  intros Hc. induction s as [|a s IH]; simpl.
  - rewrite Hc. reflexivity.
  - destruct (is_white_space a); [exact IH | reflexivity].
Qed.

Lemma trimEnd_app_nonwhite (a y : jsstring) (c : N) :
  is_white_space c = false ->
  trimEnd (a ++ c :: y) = a ++ c :: trimEnd y.
Proof.
  intros Hc. unfold trimEnd. rewrite rev_app_distr. simpl.
  rewrite <- app_assoc. simpl. rewrite trimStart_app_nonwhite by exact Hc.
  rewrite rev_app_distr. simpl. rewrite rev_involutive, <- app_assoc. reflexivity.
Qed.

Lemma digits_prefix_all (d : jsstring) (acc : Z) (len : nat) :
  forallb is_digit d = true ->
  snd (digits_prefix acc len d) = (len + length d)%nat.
Proof.
  revert acc len. induction d as [|c d IH]; intros acc len; simpl; [lia|].
  rewrite andb_true_iff. intros [-> Hd]. rewrite IH by exact Hd. lia.
Qed.

Lemma parseInt_digits (d : jsstring) :
  d <> [] -> forallb is_digit d = true -> parseInt d = Some (number_of d).
Proof.
  intros Hne Hd. destruct d as [|c d]; [congruence|].
  pose proof Hd as Hd'. simpl in Hd'. apply andb_true_iff in Hd' as [Hc _].
  pose proof (digit_not_white_space c Hc) as Hw.
  assert (Hsign : (c =? 45)%N = false /\ (c =? 43)%N = false).
  { unfold is_digit in Hc. rewrite andb_true_iff, !N.leb_le in Hc.
    split; apply N.eqb_neq; lia. }
  destruct Hsign as [H45 H43].
  unfold parseInt, number_of. cbn [trimStart]. rewrite Hw, H45, H43.
  pose proof (digits_prefix_all (c :: d) 0 0 Hd) as Hlen.
  destruct (digits_prefix 0 0 (c :: d)) as [v n]. simpl in Hlen. subst n.
  simpl. f_equal. destruct v; reflexivity.
Qed.

Lemma or_zero_Some (v : Z) : or_zero (Some v) = v.
Proof. simpl. destruct (Z.eqb_spec v 0); congruence. Qed.

(** X24: for a line id;D/M/Y where D and M are non-empty runs of decimal
    digits that write numbers of at most 2^53, which the source holds
    exactly (and neither the id nor Y holds a semicolon), the record has
    the trimmed id, the date string D/M/Y without trailing white space,
    Mois the number D and Annee the number M: the first two components
    of the date, whatever Y is. *)
Theorem X24_line_of_documented_form (id d m y : jsstring) :
  free_of 59 id = true -> free_of 59 y = true ->
  d <> [] -> forallb is_digit d = true -> number_of d <= 2 ^ 53 ->
  m <> [] -> forallb is_digit m = true -> number_of m <= 2 ^ 53 ->
  parse_line (id ++ [59%N] ++ d ++ [47%N] ++ m ++ [47%N] ++ y)
  = {| h_Matricule := trim id;
       h_DateMaree := d ++ [47%N] ++ m ++ [47%N] ++ trimEnd y;
       h_Mois := number_of d;
       h_Annee := number_of m |}.
Proof.
  intros Hid Hy Hd0 Hd _ Hm0 Hm _.
  set (field := d ++ [47%N] ++ m ++ [47%N] ++ y).
  assert (Hfield : free_of 59 field = true).
  { unfold field. rewrite !free_of_app, Hy.
    rewrite (digits_free_of 59 d), (digits_free_of 59 m)
      by (assumption || reflexivity).
    reflexivity. }
  assert (Htrim : trim field = d ++ [47%N] ++ m ++ [47%N] ++ trimEnd y).
  { unfold trim, field. destruct d as [|c d']; [congruence|].
    pose proof Hd as Hc. simpl in Hc. apply andb_true_iff in Hc as [Hc _].
    rewrite trimStart_fixed by (simpl; apply digit_not_white_space; exact Hc).
    change ((c :: d') ++ [47%N] ++ m ++ [47%N] ++ y)
      with ((c :: d') ++ 47%N :: (m ++ 47%N :: y)).
    rewrite trimEnd_app_nonwhite by reflexivity.
    rewrite trimEnd_app_nonwhite by reflexivity. reflexivity. }
  unfold parse_line. cbv zeta.
  change (id ++ [59%N] ++ field) with (id ++ 59%N :: field).
  rewrite split_app_sep, (split_free 59 id Hid), (split_free 59 field Hfield).
  cbn [app lookup list_lookup]. rewrite !trimmed_or_empty_trim, Htrim.
  change (d ++ [47%N] ++ m ++ [47%N] ++ trimEnd y)
    with (d ++ 47%N :: (m ++ 47%N :: trimEnd y)).
  rewrite !split_app_sep.
  rewrite (split_free 47 d) by (apply digits_free_of; [reflexivity | exact Hd]).
  rewrite (split_free 47 m) by (apply digits_free_of; [reflexivity | exact Hm]).
  cbn [app lookup list_lookup parseInt_elem].
  rewrite !parseInt_digits, !or_zero_Some by assumption. reflexivity.
Qed.

(** X24, at the second sample line of the README, 123-456;15/01/2024:
    Mois is 15 and Annee is 1. *)
Lemma X24_line_of_documented_form_witness :
  free_of 59 (lit "123-456") = true /\ free_of 59 (lit "2024") = true
  /\ lit "15" <> [] /\ forallb is_digit (lit "15") = true
  /\ number_of (lit "15") <= 2 ^ 53
  /\ lit "01" <> [] /\ forallb is_digit (lit "01") = true
  /\ number_of (lit "01") <= 2 ^ 53
  /\ parse_line (lit "123-456" ++ [59%N] ++ lit "15" ++ [47%N] ++ lit "01"
                 ++ [47%N] ++ lit "2024")
     = {| h_Matricule := trim (lit "123-456");
          h_DateMaree := lit "15" ++ [47%N] ++ lit "01" ++ [47%N]
                         ++ trimEnd (lit "2024");
          h_Mois := number_of (lit "15");
          h_Annee := number_of (lit "01") |}
  /\ number_of (lit "15") = 15 /\ number_of (lit "01") = 1.
Proof.
  assert (H1 : free_of 59 (lit "123-456") = true) by reflexivity.
  assert (H2 : free_of 59 (lit "2024") = true) by reflexivity.
  assert (H3 : lit "15" <> []) by discriminate.
  assert (H4 : forallb is_digit (lit "15") = true) by reflexivity.
  assert (H5 : lit "01" <> []) by discriminate.
  assert (H6 : forallb is_digit (lit "01") = true) by reflexivity.
  assert (B1 : number_of (lit "15") <= 2 ^ 53) by (vm_compute; discriminate).
  assert (B2 : number_of (lit "01") <= 2 ^ 53) by (vm_compute; discriminate).
  split; [exact H1|]. split; [exact H2|]. split; [exact H3|]. split; [exact H4|].
  split; [exact B1|]. split; [exact H5|]. split; [exact H6|]. split; [exact B2|].
  split; [|split; reflexivity].
  exact (X24_line_of_documented_form (lit "123-456") (lit "15") (lit "01")
           (lit "2024") H1 H2 H3 H4 B1 H5 H6 B2).
Defined.

(* ---- the file uploader ---------------------------------------------- *)

Lemma uploader_fold (events : list UploaderEvent) (u : Uploader)
    (selected : list File) :
  fileName u = file_name <$> last selected ->
  let '(u', selected') :=
    fold_left
      (fun '(u, selected) ev =>
         match uploader_handle ev u with
         | (u', Some file) => (u', selected ++ [file])
         | (u', None) => (u', selected)
         end)
      events (u, selected) in
  selected' = selected ++ omap event_file events
  /\ fileName u' = file_name <$> last selected'.
Proof.
  revert u selected. induction events as [|ev events IH]; intros u selected Hinv.
  - simpl. rewrite app_nil_r. auto.
  - cbn [fold_left].
    assert (Hstep : exists u1,
               uploader_handle ev u
               = (u1, event_file ev)
               /\ fileName u1
                  = file_name <$> last (selected ++ option_list (event_file ev))).
    { destruct ev as [files|files| |]; simpl;
        unfold handleFileChange, handleDrop, handleDragOver, handleDragLeave;
        try destruct (files !! 0%nat) as [f|]; simpl;
        eexists; (split; [reflexivity|]); simpl;
        rewrite ?last_snoc, ?app_nil_r; simpl; auto. }
    destruct Hstep as [u1 [Hu1 Hinv1]]. rewrite Hu1.
    destruct (event_file ev) as [f|] eqn:Hf.
    + specialize (IH u1 (selected ++ [f]) Hinv1).
      destruct (fold_left _ events (u1, selected ++ [f])) as [u' sel'].
      destruct IH as [-> Hname]. split; [|exact Hname].
      cbn [omap list_omap]. rewrite Hf, <- app_assoc. reflexivity.
    + simpl in Hinv1. rewrite app_nil_r in Hinv1.
      specialize (IH u1 selected Hinv1).
      destruct (fold_left _ events (u1, selected)) as [u' sel'].
      destruct IH as [-> Hname]. split; [|exact Hname].
      cbn [omap list_omap]. rewrite Hf. reflexivity.
Qed.

(** X25: over any sequence of change, drop and drag events, the uploader
    hands to onFileSelect exactly the first file of every change or
    drop that carries one, in order, and the name it shows is the name
    of the last file it handed over: an empty change or drop, or a
    drag, never clears or alters it. *)
Theorem X25_uploader_shows_last_selected (events : list UploaderEvent) :
  snd (uploader_run events) = omap event_file events
  /\ fileName (fst (uploader_run events))
     = file_name <$> last (snd (uploader_run events)).
Proof.
  unfold uploader_run.
  pose proof (uploader_fold events uploader_initial [] eq_refl) as H.
  destruct (fold_left _ events (uploader_initial, [])) as [u sel].
  destruct H as [-> Hname]. simpl. auto.
Qed.

(* ---- the case of the search text ------------------------------------ *)

Lemma ascii_lower_idem (c : N) : ascii_lower (ascii_lower c) = ascii_lower c.
Proof.
  unfold ascii_lower.
  destruct ((65 <=? c)%N && (c <=? 90)%N) eqn:Hc; [|rewrite Hc; reflexivity].
  apply andb_true_iff in Hc as [H1 H2]. apply N.leb_le in H1, H2.
  replace ((65 <=? c + 32)%N && (c + 32 <=? 90)%N) with false; [reflexivity|].
  symmetry. apply andb_false_iff. right. apply N.leb_gt. lia.
Qed.

Lemma ascii_lower_is_ascii (s : jsstring) :
  is_ascii s -> is_ascii (map ascii_lower s).
Proof.
  unfold is_ascii. intros Hs. apply Forall_map. eapply Forall_impl; [exact Hs|].
  intros c Hc. simpl. unfold ascii_lower.
  destruct ((65 <=? c)%N && (c <=? 90)%N) eqn:H; [|exact Hc].
  apply andb_true_iff in H as [_ H2]. apply N.leb_le in H2. lia.
Qed.

(** X26: the case of the search text does not matter: on a host whose
    toLowerCase is the usual one on ASCII, an ASCII search text and its
    lower-case form give the same result, whatever the records and the
    other filters. *)
Theorem X26_search_text_case_irrelevant `{Host} (Hlow : lowers_ascii _)
    (R : list MergedData) (sel txt sd ed : jsstring) :
  is_ascii txt ->
  filteredData R sel (map ascii_lower txt) sd ed = filteredData R sel txt sd ed.
Proof.
  intros Htxt. unfold filteredData. cbv zeta.
  assert (Htruthy : truthy (map ascii_lower txt) = truthy txt)
    by (destruct txt; reflexivity).
  assert (Hlower : toLowerCase (map ascii_lower txt) = toLowerCase txt).
  { rewrite (Hlow _ (ascii_lower_is_ascii _ Htxt)), (Hlow _ Htxt), map_map.
    apply map_ext. intros c. apply ascii_lower_idem. }
  rewrite Htruthy, Hlower. reflexivity.
Qed.

(** X26, at the sample host: BARQUE and barque find the same rows. *)
Lemma X26_search_text_case_irrelevant_witness :
  lowers_ascii sample_host /\ is_ascii (lit "BARQUE")
  /\ @filteredData sample_host [example_record] (lit "all")
       (map ascii_lower (lit "BARQUE")) [] []
     = @filteredData sample_host [example_record] (lit "all") (lit "BARQUE") [] [].
Proof.
  assert (H1 : is_ascii (lit "BARQUE")) by (repeat constructor).
  split; [exact sample_host_lowers_ascii|]. split; [exact H1|].
  exact (@X26_search_text_case_irrelevant sample_host sample_host_lowers_ascii
           [example_record] (lit "all") (lit "BARQUE") [] [] H1).
Defined.

(* ---- instances of the join edge cases ------------------------------- *)

(** X4, at an owner row whose Matricule ends with a space, after the
    owner of the example, on the example history. *)
Lemma X4_untrimmed_owner_never_joins_witness :
  untrimmed_owner !! key_Matricule = Some (lit "123-456 ")
  /\ trim (lit "123-456 ") <> lit "123-456 "
  /\ merge ([example_owner] ++ untrimmed_owner :: [])
       (parse_historique example_history)
     = merge ([example_owner] ++ []) (parse_historique example_history).
Proof.
  assert (H1 : untrimmed_owner !! key_Matricule = Some (lit "123-456 "))
    by reflexivity.
  assert (H2 : trim (lit "123-456 ") <> lit "123-456 ")
    by (vm_compute; discriminate).
  split; [exact H1|]. split; [exact H2|].
  exact (proj2 (X4_untrimmed_owner_never_joins untrimmed_owner (lit "123-456 ")
                  [example_owner] [] example_history H1 H2)).
Defined.

(** X5, at an owner row with a Barque column only. *)
Lemma X5_owner_without_matricule_ignored_witness :
  keyless_owner !! key_Matricule = None
  /\ merge ([] ++ keyless_owner :: [example_owner])
       (parse_historique example_history)
     = merge ([] ++ [example_owner]) (parse_historique example_history).
Proof.
  assert (H1 : keyless_owner !! key_Matricule = None) by reflexivity.
  split; [exact H1|].
  exact (X5_owner_without_matricule_ignored keyless_owner [] [example_owner]
           (parse_historique example_history) H1).
Defined.

(** X6, at a second row for the Matricule of the example owner. *)
Lemma X6_later_duplicate_owner_ignored_witness :
  example_owner ∈ [example_owner]
  /\ example_owner !! key_Matricule = duplicate_owner !! key_Matricule
  /\ merge ([example_owner] ++ duplicate_owner :: [])
       (parse_historique example_history)
     = merge ([example_owner] ++ []) (parse_historique example_history).
Proof.
  assert (H1 : example_owner ∈ [example_owner]) by constructor.
  assert (H2 : example_owner !! key_Matricule = duplicate_owner !! key_Matricule)
    by reflexivity.
  split; [exact H1|]. split; [exact H2|].
  exact (X6_later_duplicate_owner_ignored example_owner duplicate_owner
           [example_owner] [] (parse_historique example_history) H1 H2).
Defined.
